(** * PorePy: gmsh grid import and mixed-dimensional assembly

    Part I embeds [porepy.fracs.simplex] (src/porepy/fracs/simplex.py):
    the four entry points that turn a gmsh [.msh] file into lists of grids,
    and the repacking of the mesh read from the file.

    Part II models the mixed-dimensional mesh graph, the property store,
    the assembly engine (Coupler) and the upwind coupling.  Their Python
    modules are not among the sources; the definitions follow the
    specification, section by section.

    Part III holds the properties.

    The entries of matrices and vectors are rationals ([Q]), compared with
    [Qeq]. *)

From Stdlib Require Import ZArith QArith Qabs List String Ascii Bool Lia DecimalString.
From Stdlib Require Import Permutation.
From stdpp Require Import gmap strings list.

Close Scope Q_scope.

(* ===================================================================== *)
(** * Part I: porepy.fracs.simplex                                        *)
(* ===================================================================== *)

Module Simplex.

(** ** Python string slicing *)

(** [s[n:]] for [0 <= n]. *)
Fixpoint drop_chars (n : nat) (s : string) : string :=
  match n, s with
  | O, _ => s
  | S _, EmptyString => EmptyString
  | S n', String _ s' => drop_chars n' s'
  end.

(** [s[:n]] for [0 <= n]. *)
Fixpoint take_chars (n : nat) (s : string) : string :=
  match n, s with
  | O, _ => EmptyString
  | S _, EmptyString => EmptyString
  | S n', String c s' => String c (take_chars n' s')
  end.

(** [s[-n:]] for [0 < n]: the last [n] characters, all of [s] when it is
    shorter. *)
Definition last_chars (n : nat) (s : string) : string :=
  drop_chars (String.length s - n) s.

(** [s[:-n]] for [0 < n]: [s] without its last [n] characters. *)
Definition chop_chars (n : nat) (s : string) : string :=
  take_chars (String.length s - n) s.

(** [s.endswith(suffix)]. *)
Definition endswith (s suffix : string) : bool :=
  (String.length suffix <=? String.length s)%nat
  && String.eqb (last_chars (String.length suffix) s) suffix.

(** [str(n)] for a Python int. *)
Definition str (n : Z) : string := NilZero.string_of_int (Z.to_int n).

(** The one-character string ["\n"]. *)
Definition newline : string := String (ascii_of_nat 10) EmptyString.

(** ** Outcomes and the trace of a call

    A call either returns or raises; independently of that it leaves a
    trace: the files handed to [meshio.read] and the messages handed to
    [logger.info], in program order. *)

Inductive event : Type :=
| Read (file_name : string)
| Info (msg : string).

Inductive outcome (E A : Type) : Type :=
| Returns (a : A)
| Raises (e : E).
Arguments Returns {E A} a.
Arguments Raises {E A} e.

Definition run (E A : Type) : Type := (outcome E A * list event)%type.

Definition ret {E A} (a : A) : run E A := (Returns a, []).

Definition bind {E A B} (m : run E A) (k : A -> run E B) : run E B :=
  match m with
  | (Returns a, t) => let '(r, t') := k a in (r, t ++ t')
  | (Raises e, t) => (Raises e, t)
  end.

Definition lift {E A} (o : outcome E A) : run E A := (o, []).

Definition logger_info {E} (msg : string) : run E unit :=
  (Returns tt, [Info msg]).

#[global] Instance run_ret {E} : MRet (run E) := fun A => ret.
#[global] Instance run_bind {E} : MBind (run E) := fun A B k m => bind m k.

(** The files read during a call, in order. *)
Definition files_read {E A} (r : run E A) : list string :=
  omap (fun ev => match ev with Read f => Some f | Info _ => None end) r.2.

(** A computation that reads no file. *)
Definition quiet {E A} (r : run E A) : Prop := files_read r = [].

(** The messages logged during a call, in order. *)
Definition messages {E A} (r : run E A) : list string :=
  omap (fun ev => match ev with Info m => Some m | Read _ => None end) r.2.

(** ** The functions of the module

    The collaborators that are not part of simplex.py are parameters:
    [meshio.read] followed by the repacking of [_read_gmsh_file] (which no
    statement below depends on), the grid constructors of
    [porepy.fracs.msh_2_grid], the [Grid] class with its attributes [dim]
    and [num_cells], the constant [PhysicalNames.FRACTURE.value], and the
    clock. *)

Class Collaborators : Type := {
  Exn : Type;
  Points : Type;
  Cells : Type;
  CellInfo : Type;
  PhysNames : Type;
  Grid : Type;
  Aux : Type;
  (** Values of keyword arguments. *)
  Value : Type;
  (** [g.dim] and [g.num_cells]. *)
  dim : Grid -> Z;
  num_cells : Grid -> Z;
  (** [meshio.read(file_name)] and the repacking of its result into
      [(pts, cells, cell_info, phys_names)]. *)
  meshio_read : string -> outcome Exn (Points * Cells * CellInfo * PhysNames);
  (** [verbose > 0] for a value stored under ["verbose"]. *)
  positive_value : Value -> bool;
  (** [msh_2_grid.create_2d_grids(pts, cells, is_embedded, phys_names,
      cell_info, constraints)]; [constraints] is [None] when not passed. *)
  create_2d_grids :
    Points -> Cells -> bool -> PhysNames -> CellInfo -> option (list Z) ->
    outcome Exn (list Grid);
  (** [msh_2_grid.create_1d_grids(pts, cells, phys_names, cell_info,
      line_tag, constraints, **kwargs)]; an argument that is not passed is
      [None]. *)
  create_1d_grids :
    Points -> Cells -> PhysNames -> CellInfo -> option string ->
    option (list Z) -> gmap string Value -> outcome Exn (list Grid * Aux);
  create_0d_grids :
    Points -> Cells -> PhysNames -> CellInfo -> outcome Exn (list Grid);
  create_3d_grids : Points -> Cells -> outcome Exn (list Grid);
  (** [PhysicalNames.FRACTURE.value]. *)
  FRACTURE : string;
  (** [str(time.time() - start_time)], as the clock decides. *)
  elapsed : string
}.

Section Functions.

Context {env : Collaborators}.

(** Keyword arguments: a dict from names to values. *)
Definition kwargs : Type := gmap string Value.

(** [_read_gmsh_file(file_name)]. *)
Definition _read_gmsh_file (file_name : string)
  : run Exn (Points * Cells * CellInfo * PhysNames) :=
  (meshio_read file_name, [Read file_name]).

(** The body of the loop [for g_set in grids]: the message for one
    dimension, none for an empty list. *)
Definition grid_summary (g_set : list Grid) : option string :=
  match g_set with
  | [] => None
  | g0 :: _ =>
      let s := "Created " +:+ str (Z.of_nat (length g_set)) +:+ " "
               +:+ str (dim g0) +:+ "-d grids with " in
      let num := fold_left (fun num g => (num + num_cells g)%Z) g_set 0%Z in
      Some (s +:+ str num +:+ " cells")
  end.

Fixpoint log_summaries (grids : list (list Grid)) : run Exn unit :=
  match grids with
  | [] => ret tt
  | g_set :: rest =>
      match grid_summary g_set with
      | Some s => logger_info s ;; log_summaries rest
      | None => log_summaries rest
      end
  end.

(** Lines 46-49. *)
Definition embedded_out_file (file_name : string) : string :=
  let file_name :=
    if String.eqb (last_chars 4 file_name) ".geo"
       || String.eqb (last_chars 4 file_name) ".msh"
    then chop_chars 4 file_name
    else file_name in
  file_name +:+ ".msh".

(** Lines 113-115, 186-188 and 257-259. *)
Definition gmsh_out_file (file_name : string) : string :=
  let file_name :=
    if endswith file_name ".msh" then chop_chars 4 file_name
    else file_name in
  file_name +:+ ".msh".

(** Lines 108-109 and 181-182: [np.empty(0, dtype=int)] for [None]. *)
Definition default_constraints (constraints : option (list Z)) : list Z :=
  match constraints with
  | None => []
  | Some c => c
  end.

Definition triangle_grid_embedded (file_name : string)
  : run Exn (list (list Grid)) :=
  let out_file := embedded_out_file file_name in
  '(pts, cells, cell_info, phys_names) ← _read_gmsh_file out_file;
  g_2d ← lift (create_2d_grids pts cells true phys_names cell_info None);
  '(g_1d, _) ← lift (create_1d_grids pts cells phys_names cell_info
                        None None ∅);
  g_0d ← lift (create_0d_grids pts cells phys_names cell_info);
  let grids := [g_2d; g_1d; g_0d] in
  logger_info newline ;;
  log_summaries grids ;;
  logger_info newline ;;
  ret grids.

Definition triangle_grid_from_gmsh (file_name : string)
    (constraints : option (list Z)) (kw : kwargs)
  : run Exn (list (list Grid)) :=
  let constraints := default_constraints constraints in
  let out_file := gmsh_out_file file_name in
  '(pts, cells, cell_info, phys_names) ← _read_gmsh_file out_file;
  logger_info "Create grids of various dimensions" ;;
  g_2d ← lift (create_2d_grids pts cells false phys_names cell_info None);
  '(g_1d, _) ← lift (create_1d_grids pts cells phys_names cell_info
                        (Some FRACTURE) (Some constraints) kw);
  g_0d ← lift (create_0d_grids pts cells phys_names cell_info);
  let grids := [g_2d; g_1d; g_0d] in
  logger_info ("Grid creation completed. Elapsed time " +:+ elapsed) ;;
  log_summaries grids ;;
  ret grids.

Definition line_grid_from_gmsh (file_name : string)
    (constraints : option (list Z)) (kw : kwargs)
  : run Exn (list (list Grid)) :=
  let constraints := default_constraints constraints in
  let out_file := gmsh_out_file file_name in
  '(pts, cells, cell_info, phys_names) ← _read_gmsh_file out_file;
  logger_info "Create grids of various dimensions" ;;
  '(g_1d, _) ← lift (create_1d_grids pts cells phys_names cell_info
                        (Some FRACTURE) (Some constraints) kw);
  g_0d ← lift (create_0d_grids pts cells phys_names cell_info);
  let grids := [g_1d; g_0d] in
  logger_info ("Grid creation completed. Elapsed time " +:+ elapsed) ;;
  log_summaries grids ;;
  ret grids.

Definition tetrahedral_grid_from_gmsh (file_name : string)
    (constraints : option (list Z)) (kw : kwargs)
  : run Exn (list (list Grid)) :=
  (* verbose = kwargs.get("verbose", 1) *)
  let verbose :=
    match kw !! "verbose" with
    | Some v => positive_value v
    | None => true
    end in
  let file_name := gmsh_out_file file_name in
  '(pts, cells, cell_info, phys_names) ← _read_gmsh_file file_name;
  g_3d ← lift (create_3d_grids pts cells);
  g_2d ← lift (create_2d_grids pts cells true phys_names cell_info
                  constraints);
  '(g_1d, _) ← lift (create_1d_grids pts cells phys_names cell_info
                        None None ∅);
  g_0d ← lift (create_0d_grids pts cells phys_names cell_info);
  let grids := [g_3d; g_2d; g_1d; g_0d] in
  (if verbose
   then logger_info ("Grid creation completed. Elapsed time " +:+ elapsed) ;;
        log_summaries grids
   else ret tt) ;;
  ret grids.

End Functions.

(** An environment for examples.  Its only file is ["grid.msh"], read as
    one 2-d grid of 16 cells and two 1-d grids of 4 and 3 cells; a grid is
    the pair of its dimension and its number of cells. *)
Definition example_env : Collaborators := {|
  Exn := string;
  Points := unit;
  Cells := unit;
  CellInfo := unit;
  PhysNames := unit;
  Grid := Z * Z;
  Aux := unit;
  Value := Z;
  dim := fst;
  num_cells := snd;
  meshio_read := fun f =>
    if String.eqb f "grid.msh" then Returns (tt, tt, tt, tt)
    else Raises ("No such file: " +:+ f);
  positive_value := fun v => (0 <? v)%Z;
  create_2d_grids := fun _ _ _ _ _ _ => Returns [(2, 16)%Z];
  create_1d_grids := fun _ _ _ _ _ _ _ => Returns ([(1, 4)%Z; (1, 3)%Z], tt);
  create_0d_grids := fun _ _ _ _ => Returns [];
  create_3d_grids := fun _ _ => Returns [];
  FRACTURE := "FRACTURE";
  elapsed := "0.5"
|}.

End Simplex.

(* ===================================================================== *)
(** * Part I, continued: what [_read_gmsh_file] does with the mesh         *)
(* ===================================================================== *)

(** [Simplex] takes [meshio.read] and the repacking that follows it as one
    collaborator.  Here the repacking of lines 331-381 is spelled out: the
    inversion of the physical names and the two branches for the two
    generations of meshio.  Arrays hold integers; the order in which
    Python iterates over a set is a parameter. *)

Module GmshFile.

Import Simplex.

(** ** Exceptions and results *)

(** The exceptions of [_read_gmsh_file]: those of its own statements and
    whatever [meshio.read] or a later collaborator raises. *)
Inductive exn (X : Type) : Type :=
| KeyError (key : string)
| IndexError
| ValueError
| OtherError (x : X).
Arguments KeyError {X} key.
Arguments IndexError {X}.
Arguments ValueError {X}.
Arguments OtherError {X} x.

#[global] Instance outcome_ret {E} : MRet (outcome E) := fun A => Returns.
#[global] Instance outcome_bind {E} : MBind (outcome E) := fun A B k m =>
  match m with
  | Returns a => k a
  | Raises e => Raises e
  end.

(** ** numpy arrays of integers *)

(** A 2-d array: its number of columns and its rows; a 1-d array. *)
Record Array2 : Type := { width : nat; rows : list (list Z) }.
Definition Array1 : Type := list Z.

(** [np.vstack(parts)] for 2-d arrays: the rows of all parts, which must
    agree on the number of columns; no part at all is an error. *)
Definition vstack {X} (parts : list Array2) : outcome (exn X) Array2 :=
  match parts with
  | [] => Raises ValueError
  | a :: rest =>
      if forallb (fun b => (width b =? width a)%nat) rest
      then Returns {| width := width a; rows := concat (rows <$> parts) |}
      else Raises ValueError
  end.

(** [np.hstack(parts)] for 1-d arrays. *)
Definition hstack {X} (parts : list Array1) : outcome (exn X) Array1 :=
  match parts with
  | [] => Raises ValueError
  | _ => Returns (concat parts)
  end.

(** ** Dictionaries in insertion order *)

(** [d[key]]. *)
Fixpoint dict_get {A} (key : string) (d : list (string * A)) : option A :=
  match d with
  | [] => None
  | kv :: r => if String.eqb kv.1 key then Some kv.2 else dict_get key r
  end.

(** [d[key].append(x)]; [KeyError] without the key. *)
Fixpoint dict_append {X A} (key : string) (x : A) (d : list (string * list A))
  : outcome (exn X) (list (string * list A)) :=
  match d with
  | [] => Raises (KeyError key)
  | kv :: r =>
      if String.eqb kv.1 key then Returns ((kv.1, kv.2 ++ [x]) :: r)
      else r' ← dict_append key x r; mret (kv :: r')
  end.

(** ** What [meshio.read] returns *)

(** A cell block of meshio 4: [cb.type] and [cb.data]. *)
Record CellBlock : Type := { cb_type : string; cb_data : Array2 }.

(** The mesh of meshio, in the two generations the function tells apart by
    [isinstance(cells, list)]: with a list of cell blocks and, per data
    name, one array per block; or with a dict of cells per type and, per
    type, a dict of arrays per data name.  [field_data] maps a physical
    name to an array whose first entry is the physical tag. *)
Inductive MeshioMesh (P : Type) : Type :=
| MeshV4 (points : P) (cells : list CellBlock)
    (cell_data : gmap string (list Array1))
    (field_data : list (string * list Z))
| MeshV2 (points : P) (cells : list (string * Array2))
    (cell_data : list (string * gmap string Array1))
    (field_data : list (string * list Z)).
Arguments MeshV4 {P} points cells cell_data field_data.
Arguments MeshV2 {P} points cells cell_data field_data.

Definition field_data {P} (mesh : MeshioMesh P) : list (string * list Z) :=
  match mesh with
  | MeshV4 _ _ _ fd | MeshV2 _ _ _ fd => fd
  end.

(** ** The function *)

(** Line 337: [{v[0]: k for k, v in mesh.field_data.items()}]. *)
Definition invert_field_data {X} (fd : list (string * list Z))
  : outcome (exn X) (gmap Z string) :=
  foldl (fun acc kv =>
           m ← acc;
           match kv.2 with
           | [] => Raises IndexError
           | tag :: _ => mret (<[tag := kv.1]> m)
           end)
        (mret ∅) fd.

(** Lines 361-363: the loop over [zip(cells, cell_info["gmsh:physical"])]. *)
Definition append_blocks {X} (pairs : list (CellBlock * Array1))
    (tmp : list (string * list Array2) * list (string * list Array1))
  : outcome (exn X)
      (list (string * list Array2) * list (string * list Array1)) :=
  foldl (fun acc p =>
           t ← acc;
           tmp_cells ← dict_append (cb_type p.1) (cb_data p.1) t.1;
           tmp_info ← dict_append (cb_type p.1) p.2 t.2;
           mret (tmp_cells, tmp_info))
        (mret tmp) pairs.

(** Lines 366-369: every list of parts replaced by its stack, in the
    order of the dict. *)
Definition stack_all {X A B} (stack : list A -> outcome (exn X) B)
    (d : list (string * list A)) : outcome (exn X) (list (string * B)) :=
  mapM (fun kv => a ← stack kv.2; mret (kv.1, a)) d.

Section Repack.

Context {P X : Type}.

(** The order in which Python iterates over [set(types)]. *)
Variable set_iter : list string -> list string.

(** Lines 341-372: the branch for a list of cell blocks. *)
Definition repack_blocks (cells : list CellBlock)
    (cell_info : gmap string (list Array1))
  : outcome (exn X) (list (string * Array2) * list (string * Array1)) :=
  let keys := set_iter (cb_type <$> cells) in
  let tmp_cells := (fun key => (key, [])) <$> keys in
  let tmp_info := (fun key => (key, [])) <$> keys in
  physical ←
    match cell_info !! "gmsh:physical" with
    | Some l => Returns l
    | None => Raises (KeyError "gmsh:physical")
    end;
  tmp ← append_blocks (zip cells physical) (tmp_cells, tmp_info);
  tmp_cells ← stack_all vstack tmp.1;
  tmp_info ← stack_all hstack tmp.2;
  mret (tmp_cells, tmp_info).

(** Lines 373-379: the branch for dicts. *)
Definition drop_level (cell_info : list (string * gmap string Array1))
  : outcome (exn X) (list (string * Array1)) :=
  mapM (fun kv =>
          match kv.2 !! "gmsh:physical" with
          | Some a => Returns (kv.1, a)
          | None => Raises (KeyError "gmsh:physical")
          end) cell_info.

(** Lines 331-381: [_read_gmsh_file] after [meshio.read]. *)
Definition repack (mesh : MeshioMesh P)
  : outcome (exn X)
      (P * list (string * Array2) * list (string * Array1) * gmap Z string) :=
  phys_names ← invert_field_data (field_data mesh);
  match mesh with
  | MeshV4 pts cells cell_info _ =>
      r ← repack_blocks cells cell_info;
      mret (pts, r.1, r.2, phys_names)
  | MeshV2 pts cells cell_info _ =>
      cell_info ← drop_level cell_info;
      mret (pts, cells, cell_info, phys_names)
  end.

(** [meshio.read]. *)
Variable read : string -> outcome (exn X) (MeshioMesh P).

(** Lines 303-381: [_read_gmsh_file(file_name)], in full. *)
Definition read_gmsh_file (file_name : string)
  : outcome (exn X)
      (P * list (string * Array2) * list (string * Array1) * gmap Z string) :=
  mesh ← read file_name;
  repack mesh.

End Repack.

(** ** The parts of one cell type

    What the loop of lines 361-363 collects under one key: the vertex
    arrays and the tag arrays of the blocks of that type, in file order. *)

Definition cells_of_type (t : string) (pairs : list (CellBlock * Array1))
  : list Array2 :=
  (fun p => cb_data p.1) <$> filter (fun p => cb_type p.1 = t) pairs.

Definition tags_of_type (t : string) (pairs : list (CellBlock * Array1))
  : list Array1 :=
  snd <$> filter (fun p => cb_type p.1 = t) pairs.

(** ** The entry points on top of the reader

    The collaborators of [Simplex] with [_read_gmsh_file] spelled out; the
    grid constructors of [msh_2_grid] stay parameters. *)

Section Environment.

Context {P X G A V : Type}.

Variable set_iter : list string -> list string.
Variable read : string -> outcome (exn X) (MeshioMesh P).
Variable g_dim : G -> Z.
Variable g_num_cells : G -> Z.
Variable positive : V -> bool.
Variable c2d :
  P -> list (string * Array2) -> bool -> gmap Z string ->
  list (string * Array1) -> option (list Z) -> outcome (exn X) (list G).
Variable c1d :
  P -> list (string * Array2) -> gmap Z string -> list (string * Array1) ->
  option string -> option (list Z) -> gmap string V ->
  outcome (exn X) (list G * A).
Variable c0d :
  P -> list (string * Array2) -> gmap Z string -> list (string * Array1) ->
  outcome (exn X) (list G).
Variable c3d : P -> list (string * Array2) -> outcome (exn X) (list G).
Variable fracture : string.
Variable clock : string.

Definition gmsh_env : Collaborators := {|
  Exn := exn X;
  Points := P;
  Cells := list (string * Array2);
  CellInfo := list (string * Array1);
  PhysNames := gmap Z string;
  Grid := G;
  Aux := A;
  Value := V;
  dim := g_dim;
  num_cells := g_num_cells;
  meshio_read := read_gmsh_file set_iter read;
  positive_value := positive;
  create_2d_grids := c2d;
  create_1d_grids := c1d;
  create_0d_grids := c0d;
  create_3d_grids := c3d;
  FRACTURE := fracture;
  elapsed := clock
|}.

End Environment.

(** ** A mesh for examples

    Two blocks of lines around one block of triangles, the tags of their
    cells, and two physical names. *)

Definition example_cells : list CellBlock :=
  [ {| cb_type := "line";
       cb_data := {| width := 2; rows := [[0%Z; 1%Z]; [1%Z; 2%Z]] |} |};
    {| cb_type := "triangle";
       cb_data := {| width := 3; rows := [[0%Z; 1%Z; 3%Z]] |} |};
    {| cb_type := "line";
       cb_data := {| width := 2; rows := [[2%Z; 3%Z]] |} |} ].

Definition example_tags : list Array1 := [[7%Z; 7%Z]; [1%Z]; [8%Z]].

Definition example_fields : list (string * list Z) :=
  [("FRACTURE_7", [7%Z; 1%Z]); ("DOMAIN", [1%Z; 2%Z])].

Definition example_mesh : MeshioMesh unit :=
  MeshV4 tt example_cells {["gmsh:physical" := example_tags]} example_fields.

(** The same mesh written without physical tags. *)
Definition untagged_mesh : MeshioMesh unit :=
  MeshV4 tt example_cells ∅ example_fields.

(** The lines of the mesh as meshio 2 hands them over. *)
Definition example_dict_mesh : MeshioMesh unit :=
  MeshV2 tt
    [("line", {| width := 2; rows := [[0%Z; 1%Z]; [1%Z; 2%Z]; [2%Z; 3%Z]] |})]
    [("line", {["gmsh:physical" := [7%Z; 7%Z; 8%Z]]})]
    example_fields.

(** The entry points over a reader that finds [untagged_mesh] in every
    file; no grid is ever constructed. *)
Definition untagged_env : Collaborators :=
  gmsh_env (X := unit) (G := Z * Z) (A := unit) (V := Z)
    remove_dups (fun _ => Returns untagged_mesh) fst snd
    (fun v => (0 <? v)%Z)
    (fun _ _ _ _ _ _ => Returns []) (fun _ _ _ _ _ _ _ => Returns ([], tt))
    (fun _ _ _ _ => Returns []) (fun _ _ => Returns [])
    "FRACTURE" "0.5".

End GmshFile.

(* ===================================================================== *)
(** * Part II: the mixed-dimensional mesh graph and the assembly engine   *)
(* ===================================================================== *)

(** The grid bucket, the Coupler and the upwind operators are not among the
    sources (only their unit test is).  Every definition of this part that
    stands for one of them is marked as modelled from the specification. *)

Module MixedDim.

(** ** Numbers and sparse matrices *)

Definition vec3 : Type := Q * Q * Q.

Definition Qsum (l : list Q) : Q := foldr Qplus 0%Q l.

(** A sparse matrix in coordinate format: its shape and (row, column,
    value) triples; triples with the same position add up. *)
Record spmatrix : Type := SpMatrix {
  nrows : nat;
  ncols : nat;
  entries : list (nat * nat * Q)
}.

Definition at_position (i j : nat) (t : nat * nat * Q) : option Q :=
  if (t.1.1 =? i)%nat && (t.1.2 =? j)%nat then Some t.2 else None.

Definition entry (A : spmatrix) (i j : nat) : Q :=
  Qsum (omap (at_position i j) (entries A)).





(** ** Data model (specification, section 3) *)

(** The stable handle of a mesh, and what a property or an error belongs
    to: a node, or the edge between a parent and a child. *)
Definition handle : Type := nat.

Inductive owner : Type :=
| NodeOwner (h : handle)
| EdgeOwner (p c : handle).

(** Modelled from the spec: the error taxonomy of section 7.  The modules
    that raise these errors are missing; the owner carried by an error is
    the mesh or interface it names. *)
Inductive Error : Type :=
| DuplicateNodeError (h : handle)
| UnknownNodeError (h : handle)
| DimensionMismatchError (p c : handle)
| MissingPropertyError (o : owner) (key : string)
| DiscretizationError (o : owner)
| AlreadyOrderedError.

Inductive result (A : Type) : Type :=
| Ok (a : A)
| Err (e : Error).
Arguments Ok {A} a.
Arguments Err {A} e.

#[global] Instance result_ret : MRet result := fun A => Ok.
#[global] Instance result_bind : MBind result := fun A B k m =>
  match m with
  | Ok a => k a
  | Err e => Err e
  end.

#[global] Instance owner_eq_dec : EqDecision owner.
Proof. solve_decision. Defined.

#[global] Instance owner_countable : Countable owner :=
  inj_countable'
    (fun o => match o with
              | NodeOwner h => inl h
              | EdgeOwner p c => inr (p, c)
              end)
    (fun x => match x with
              | inl h => NodeOwner h
              | inr (p, c) => EdgeOwner p c
              end)
    (fun o => match o with
              | NodeOwner _ => eq_refl
              | EdgeOwner _ _ => eq_refl
              end).

(** Modelled from the spec: a Mesh (section 3).  The grid classes are
    missing.  The attributes fixed at construction are kept apart from the
    geometric quantities, which are absent until computed. *)
Record Topology : Type := {
  t_dim : nat;
  t_num_cells : nat;
  t_num_faces : nat;
  vertices : list vec3;
  face_nodes : list (list nat);
  (* signed cell-face incidence: (face, cell, +1 or -1); +1 when the
     face normal points out of the cell *)
  cell_faces : list (nat * nat * Q);
  domain_boundary_faces : list nat
}.

Record Geometry : Type := {
  face_normals : list vec3;   (* weighted by the face area *)
  face_areas : list Q
}.

Record Mesh : Type := {
  topology : Topology;
  geometry : option Geometry
}.

Definition mesh_dim (m : Mesh) : nat := t_dim (topology m).
Definition num_cells (m : Mesh) : nat := t_num_cells (topology m).
Definition num_faces (m : Mesh) : nat := t_num_faces (topology m).

(** Modelled from the spec: an Interface (section 3): a mortar mesh and one
    projection per side.  Row [k] of a projection is mortar face [k]; its
    columns are the indices of the endpoint mesh the mortar quantities are
    mapped to. *)
Record Interface : Type := {
  mortar : Mesh;
  parent_projection : spmatrix;
  child_projection : spmatrix
}.

Record Edge : Type := {
  parent : handle;
  child : handle;
  interface : Interface
}.

(** Modelled from the spec: the Mesh Graph (section 3): the registered
    meshes in insertion order, the edges, and the frozen node order once it
    has been assigned. *)
Record MeshGraph : Type := {
  nodes : list (handle * Mesh);
  edges : list Edge;
  node_order : option (list handle)
}.

Definition empty_graph : MeshGraph :=
  {| nodes := []; edges := []; node_order := None |}.

(** The first value stored under a key of an association list. *)
Fixpoint assoc {A} (h : handle) (l : list (handle * A)) : option A :=
  match l with
  | [] => None
  | x :: r => if (x.1 =? h)%nat then Some x.2 else assoc h r
  end.

Definition lookup_node (g : MeshGraph) (h : handle) : option Mesh :=
  assoc h (nodes g).

Definition get_node (g : MeshGraph) (h : handle) : result Mesh :=
  match lookup_node g h with
  | Some m => Ok m
  | None => Err (UnknownNodeError h)
  end.

(** ** Mesh Graph operations (section 4.1) *)

(** Modelled from the spec: [add_node].  A graph that changes loses its
    node order. *)
Definition add_node (g : MeshGraph) (h : handle) (m : Mesh) : result MeshGraph :=
  match lookup_node g h with
  | Some _ => Err (DuplicateNodeError h)
  | None =>
      Ok {| nodes := nodes g ++ [(h, m)]; edges := edges g; node_order := None |}
  end.

(** Modelled from the spec: [add_edge]. *)
Definition add_edge (g : MeshGraph) (p c : handle) (i : Interface)
  : result MeshGraph :=
  mp ← get_node g p;
  mc ← get_node g c;
  if (mesh_dim mp =? mesh_dim mc + 1)%nat
  then Ok {| nodes := nodes g;
             edges := edges g ++ [{| parent := p; child := c; interface := i |}];
             node_order := None |}
  else Err (DimensionMismatchError p c).

(** Stable insertion sort. *)
Fixpoint insert_by {A} (leb : A -> A -> bool) (x : A) (l : list A) : list A :=
  match l with
  | [] => [x]
  | y :: r => if leb x y then x :: l else y :: insert_by leb x r
  end.

Definition sort_by {A} (leb : A -> A -> bool) (l : list A) : list A :=
  foldr (insert_by leb) [] l.

(** Modelled from the spec: [assign_node_ordering]: descending dimension,
    insertion order within a dimension.  Calling it again recomputes the
    same order. *)
Definition frozen_order (ns : list (handle * Mesh)) : list handle :=
  fst <$> sort_by (fun a b => (mesh_dim b.2 <=? mesh_dim a.2)%nat) ns.

Definition assign_node_ordering (g : MeshGraph) : MeshGraph :=
  {| nodes := nodes g; edges := edges g;
     node_order := Some (frozen_order (nodes g)) |}.

(** Position of a handle in the frozen order. *)
Fixpoint rank (h : handle) (o : list handle) : nat :=
  match o with
  | [] => 0
  | x :: r => if (x =? h)%nat then 0 else S (rank h r)
  end.

(** Modelled from the spec: [nodes()]: the meshes in frozen order. *)
Definition ordered_nodes (g : MeshGraph) : list (handle * Mesh) :=
  match node_order g with
  | Some o => sort_by (fun a b => (rank a.1 o <=? rank b.1 o)%nat) (nodes g)
  | None => nodes g
  end.

(** Modelled from the spec: [edges()]: grouped by the higher-dimensional
    endpoint, in node order. *)
Definition ordered_edges (g : MeshGraph) : list Edge :=
  match node_order g with
  | Some o =>
      sort_by (fun a b => (rank (parent a) o <=? rank (parent b) o)%nat) (edges g)
  | None => edges g
  end.


(** ** Property Store (section 4.2) *)

Inductive value : Type :=
| VArray (a : list Q)
| VFlags (b : list bool)
| VMatrix (A : spmatrix).

(** Modelled from the spec: the Property Store, a map from (node-or-edge
    handle, key) to a value. *)
Abbreviation Store := (gmap (owner * string) value).


(** Modelled from the spec: [get_node_property] / [get_edge_property]: a
    key that was never set is an error. *)
Definition get_property (s : Store) (o : owner) (key : string) : result value :=
  match s !! (o, key) with
  | Some v => Ok v
  | None => Err (MissingPropertyError o key)
  end.

Definition get_node_property (s : Store) (h : handle) := get_property s (NodeOwner h).
Definition get_edge_property (s : Store) (p c : handle) := get_property s (EdgeOwner p c).


(** ** Operator contracts (sections 4.3 and 4.4) *)

Definition LocalSystem : Type := spmatrix * list Q.

(** Modelled from the spec: the Discretization Operator capability: the
    number of unknowns of a mesh, the keys of the properties it requires of
    the mesh, and [discretize(mesh, properties)], which is given the values
    of these keys; [None] stands for ill-posed local data. *)
Class Discretization : Type := {
  ndof : Mesh -> nat;
  node_keys : list string;
  discretize : Mesh -> list value -> option LocalSystem
}.

(** The four sub-blocks a coupling produces. *)
Record CouplingBlocks : Type := {
  parent_parent : spmatrix;
  parent_child : spmatrix;
  child_parent : spmatrix;
  child_child : spmatrix
}.

(** Modelled from the spec: the Coupling Operator capability: the number
    of unknowns of its own on an edge, the keys it requires of the edge and
    of the two endpoints, and [assemble_coupling(interface, parent system,
    child system, edge properties, parent properties, child properties)];
    [None] stands for ill-posed local data. *)
Class Coupling : Type := {
  edge_ndof : Edge -> nat;
  edge_keys : list string;
  parent_keys : list string;
  child_keys : list string;
  assemble_coupling :
    Interface -> LocalSystem -> LocalSystem ->
    list value -> list value -> list value -> option CouplingBlocks
}.

(** ** Assembly Engine (section 4.5) *)


(** Membership in, and disjointness of, ranges [(lo, hi)], which stand for
    the half-open intervals [lo, hi). *)
Definition in_range (r : nat * nat) (k : nat) : Prop := r.1 <= k < r.2.

Definition disjoint_ranges (r1 r2 : nat * nat) : Prop :=
  r1.2 <= r2.1 \/ r2.2 <= r1.1.

(** Contiguous ranges of the given sizes, from [start] on. *)
Fixpoint dof_ranges (start : nat) (sizes : list nat) : list (nat * nat) :=
  match sizes with
  | [] => []
  | n :: r => (start, start + n) :: dof_ranges (start + n) r
  end.

Definition edge_owner (e : Edge) : owner := EdgeOwner (parent e) (child e).


Section Engine.

Context {D : Discretization} {C : Coupling}.

(** [compute_geometry()] of the mesh graph.  The grid classes that compute
    the geometric quantities are missing; the engine only calls it. *)
Variable compute_geometry : MeshGraph -> MeshGraph.


(** Modelled from the spec: step 2 of the Coupler: the DOF map, nodes in
    frozen order, then edges; the size of a node is asked through [ndof],
    the size of an edge through [edge_ndof]. *)
Definition dof_owners (g : MeshGraph) : list owner :=
  ((fun n => NodeOwner n.1) <$> ordered_nodes g)
  ++ (edge_owner <$> ordered_edges g).

Definition local_sizes (g : MeshGraph) : list nat :=
  ((fun n => ndof n.2) <$> ordered_nodes g)
  ++ (edge_ndof <$> ordered_edges g).

Definition dof_map (g : MeshGraph) : list (owner * (nat * nat)) :=
  zip (dof_owners g) (dof_ranges 0 (local_sizes g)).

Definition total_dof (g : MeshGraph) : nat := sum_list (local_sizes g).



















End Engine.

(** ** The upwind coupling (section 4.4) *)

(** Modelled from the spec: the side the flux flows out of.  The normal
    flux of a mortar face is oriented from parent into child; a flux of
    exactly zero is no transport. *)
Inductive Donor : Type := ParentDonor | ChildDonor | NoTransport.

Definition donor (flux : Q) : Donor :=
  match (0 ?= flux)%Q with
  | Lt => ParentDonor
  | Gt => ChildDonor
  | Eq => NoTransport
  end.

(** Row [k] of a projection: the endpoint indices mortar face [k] is
    mapped to, with their weights. *)
Definition row (A : spmatrix) (k : nat) : list (nat * Q) :=
  omap (fun t => if (t.1.1 =? k)%nat then Some (t.1.2, t.2) else None)
       (entries A).

(** Modelled from the spec: the upwind coupling law of section 4.4 at one
    mortar face [k] with normal flux [flux], in the indexing of the
    endpoints (the projections applied): the donor side gets the flux
    magnitude on the diagonal of its own block, the receiving side the
    negative of that in its off-diagonal block; nothing at zero flux. *)
Record FaceCoupling : Type := {
  on_parent_parent : list (nat * nat * Q);
  on_parent_child : list (nat * nat * Q);
  on_child_parent : list (nat * nat * Q);
  on_child_child : list (nat * nat * Q)
}.

Definition face_coupling (i : Interface) (k : nat) (flux : Q) : FaceCoupling :=
  let ps := row (parent_projection i) k in
  let cs := row (child_projection i) k in
  match donor flux with
  | ParentDonor =>
      {| on_parent_parent := (fun p => (p.1, p.1, (p.2 * Qabs flux)%Q)) <$> ps;
         on_parent_child := [];
         on_child_parent :=
           p ← ps; c ← cs; [(c.1, p.1, (- (c.2 * Qabs flux * p.2))%Q)];
         on_child_child := [] |}
  | ChildDonor =>
      {| on_parent_parent := [];
         on_parent_child :=
           p ← ps; c ← cs; [(p.1, c.1, (- (p.2 * Qabs flux * c.2))%Q)];
         on_child_parent := [];
         on_child_child := (fun c => (c.1, c.1, (c.2 * Qabs flux)%Q)) <$> cs |}
  | NoTransport =>
      {| on_parent_parent := []; on_parent_child := [];
         on_child_parent := []; on_child_child := [] |}
  end.

(** Modelled from the spec: the four blocks of section 4.4 from the
    contributions of the mortar faces; a block has as many rows and columns
    as the projections of its two sides have columns. *)
Definition coupling_blocks (i : Interface) (fs : list FaceCoupling)
  : CouplingBlocks :=
  let np := ncols (parent_projection i) in
  let nc := ncols (child_projection i) in
  {| parent_parent := SpMatrix np np (concat (on_parent_parent <$> fs));
     parent_child := SpMatrix np nc (concat (on_parent_child <$> fs));
     child_parent := SpMatrix nc np (concat (on_child_parent <$> fs));
     child_child := SpMatrix nc nc (concat (on_child_child <$> fs)) |}.

(** Modelled from the spec: the upwind coupling operator of the missing
    module [porepy.numerics.fv.transport.upwind_coupling], in the words of
    section 4.4.  The normal flux is the edge property ["beta_n"] (the key
    the unit test stores on the edge, line 36), one number per mortar face;
    anything else is ill-posed.  The systems of the endpoints are not
    used. *)
Definition upwind_coupling (i : Interface) (_ _ : LocalSystem)
    (edge_props _ _ : list value) : option CouplingBlocks :=
  match edge_props with
  | [VArray flux] =>
      if (length flux =? num_faces (mortar i))%nat
      then Some (coupling_blocks i (imap (face_coupling i) flux))
      else None
  | _ => None
  end.

#[global] Instance UpwindCoupling : Coupling := {|
  edge_ndof := fun _ => 0;
  edge_keys := ["beta_n"];
  parent_keys := [];
  child_keys := [];
  assemble_coupling := upwind_coupling
|}.

(** The interface without mortar face [k]: the face projects nowhere. *)
Definition without_row (k : nat) (A : spmatrix) : spmatrix :=
  SpMatrix (nrows A) (ncols A) (filter (fun t => t.1.1 <> k) (entries A)).

Definition without_face (k : nat) (i : Interface) : Interface :=
  {| mortar := mortar i;
     parent_projection := without_row k (parent_projection i);
     child_projection := without_row k (child_projection i) |}.

(** ** A graph for examples

    A 2-d mesh of eight cells cut by a 1-d mesh of two cells; the mortar
    mesh between them has four faces, two on each side of the cut.  The
    discretization of the examples has one unknown per cell and puts the
    required property ["weight"], one number per cell, on the diagonal. *)

Definition example_mesh (d cells faces : nat) : Mesh :=
  {| topology := {| t_dim := d; t_num_cells := cells; t_num_faces := faces;
                    vertices := []; face_nodes := []; cell_faces := [];
                    domain_boundary_faces := [] |};
     geometry := Some {| face_normals := []; face_areas := [] |} |}.

Definition example_interface : Interface :=
  {| mortar := example_mesh 1 4 4;
     parent_projection :=
       SpMatrix 4 8 [(0, 1, 1%Q); (1, 2, 1%Q); (2, 5, 1%Q); (3, 6, 1%Q)];
     child_projection :=
       SpMatrix 4 2 [(0, 0, 1%Q); (1, 0, 1%Q); (2, 1, 1%Q); (3, 1, 1%Q)] |}.

Definition example_graph : MeshGraph :=
  {| nodes := [(1, example_mesh 1 2 3); (0, example_mesh 2 8 22)];
     edges := [{| parent := 0; child := 1; interface := example_interface |}];
     node_order := None |}.

#[global] Instance CellWeights : Discretization := {|
  ndof := num_cells;
  node_keys := ["weight"];
  discretize := fun m props =>
    match props with
    | [VArray w] =>
        if (length w =? num_cells m)%nat
        then Some (SpMatrix (num_cells m) (num_cells m)
                     (imap (fun c x => (c, c, x)) w),
                   replicate (num_cells m) 0%Q)
        else None
    | _ => None
    end
|}.


End MixedDim.

(* ===================================================================== *)
(** * Part III: properties                                                *)
(* ===================================================================== *)

(** ** porepy.fracs.simplex *)

Module SimplexFacts.

Import Simplex.

Lemma length_append (p q : string) :
  String.length (p +:+ q) = String.length p + String.length q.
Proof. induction p as [|c p IH]; simpl; [done | by rewrite IH]. Qed.

Lemma drop_chars_append (p q : string) :
  drop_chars (String.length p) (p +:+ q) = q.
Proof. induction p as [|c p IH]; simpl; [by destruct q | done]. Qed.

Lemma take_chars_append (p q : string) :
  take_chars (String.length p) (p +:+ q) = p.
Proof. induction p as [|c p IH]; simpl; [done | by rewrite IH]. Qed.

Lemma take_drop_chars (n : nat) (s : string) :
  take_chars n s +:+ drop_chars n s = s.
Proof.
  revert s; induction n as [|n IH]; intros [|c s]; simpl; try done.
  change (String c (take_chars n s +:+ drop_chars n s) = String c s).
  by rewrite IH.
Qed.

Lemma last_chars_append (p q : string) :
  last_chars (String.length q) (p +:+ q) = q.
Proof.
  unfold last_chars. rewrite length_append.
  replace (String.length p + String.length q - String.length q)
    with (String.length p) by lia.
  apply drop_chars_append.
Qed.

Lemma chop_chars_append (p q : string) :
  chop_chars (String.length q) (p +:+ q) = p.
Proof.
  unfold chop_chars. rewrite length_append.
  replace (String.length p + String.length q - String.length q)
    with (String.length p) by lia.
  apply take_chars_append.
Qed.

Lemma last4_append (p q : string) :
  String.length q = 4 -> last_chars 4 (p +:+ q) = q.
Proof. intros <-. apply last_chars_append. Qed.

Lemma chop4_append (p q : string) :
  String.length q = 4 -> chop_chars 4 (p +:+ q) = p.
Proof. intros <-. apply chop_chars_append. Qed.

Lemma endswith_append (p q : string) : endswith (p +:+ q) q = true.
Proof.
  unfold endswith. rewrite last_chars_append, String.eqb_refl, length_append.
  rewrite andb_true_r. apply Nat.leb_le. lia.
Qed.

(** A string that ends with [q] is its chopped part followed by [q]. *)
Lemma endswith_inv (s q : string) :
  endswith s q = true -> s = chop_chars (String.length q) s +:+ q.
Proof.
  unfold endswith. intros [_ H%String.eqb_eq]%andb_true_iff.
  transitivity (chop_chars (String.length q) s
                +:+ last_chars (String.length q) s).
  - symmetry. apply take_drop_chars.
  - by rewrite H.
Qed.

(** The comparison of [s[-4:]] with a suffix of four characters is
    [endswith]. *)
Lemma last4_eqb_endswith (s q : string) :
  String.length q = 4 -> String.eqb (last_chars 4 s) q = endswith s q.
Proof.
  intros Hq. unfold endswith. rewrite Hq.
  destruct (Nat.leb_spec 4 (String.length s)) as [Hle | Hlt]; [done|].
  simpl. apply String.eqb_neq. intros Heq.
  unfold last_chars in Heq.
  replace (String.length s - 4) with 0 in Heq by lia.
  simpl in Heq. subst s. lia.
Qed.

Section Names.

Context {env : Collaborators}.

Lemma gmsh_out_file_msh (name : string) :
  gmsh_out_file (name +:+ ".msh") = name +:+ ".msh".
Proof.
  unfold gmsh_out_file. rewrite endswith_append.
  by rewrite chop4_append.
Qed.

Lemma gmsh_out_file_other (name : string) :
  endswith name ".msh" = false -> gmsh_out_file name = name +:+ ".msh".
Proof. intros H. unfold gmsh_out_file. by rewrite H. Qed.

Lemma embedded_out_file_geo (name : string) :
  embedded_out_file (name +:+ ".geo") = name +:+ ".msh".
Proof.
  unfold embedded_out_file.
  by rewrite last4_append, chop4_append.
Qed.

Lemma embedded_out_file_msh (name : string) :
  embedded_out_file (name +:+ ".msh") = name +:+ ".msh".
Proof.
  unfold embedded_out_file.
  rewrite last4_append, chop4_append by done.
  by rewrite orb_true_r.
Qed.

Lemma embedded_out_file_other (name : string) :
  endswith name ".geo" = false -> endswith name ".msh" = false ->
  embedded_out_file name = name +:+ ".msh".
Proof.
  intros Hg Hm. unfold embedded_out_file.
  rewrite !last4_eqb_endswith, Hg, Hm by done. done.
Qed.

End Names.

(** *** The trace of a call *)

Section Traces.

Context {env : Collaborators}.

Lemma files_read_bind {A B} (m : run Exn A) (k : A -> run Exn B) :
  files_read (m ≫= k)
  = files_read m ++ match m.1 with
                    | Returns a => files_read (k a)
                    | Raises _ => []
                    end.
Proof.
  destruct m as [[a|e] t]; unfold files_read, mbind, run_bind, bind; simpl.
  - destruct (k a) as [r t']; simpl. apply omap_app.
  - by rewrite app_nil_r.
Qed.

Lemma quiet_bind {A B} (m : run Exn A) (k : A -> run Exn B) :
  quiet m -> (forall a, quiet (k a)) -> quiet (m ≫= k).
Proof.
  unfold quiet. intros Hm Hk. rewrite files_read_bind, Hm.
  destruct (m.1); simpl; auto.
Qed.

Lemma quiet_lift {A} (o : outcome Exn A) : quiet (lift o).
Proof. reflexivity. Qed.

Lemma quiet_info (msg : string) : quiet (logger_info (E := Exn) msg).
Proof. reflexivity. Qed.

Lemma quiet_ret {A} (a : A) : quiet (ret (E := Exn) a).
Proof. reflexivity. Qed.

Lemma quiet_log_summaries (grids : list (list Grid)) :
  quiet (log_summaries grids).
Proof.
  induction grids as [|g_set rest IH]; [apply quiet_ret|].
  unfold log_summaries; fold log_summaries.
  destruct (grid_summary g_set); [|done].
  apply quiet_bind; [apply quiet_info | done].
Qed.

Ltac quiet_steps :=
  repeat first
    [ apply quiet_lift | apply quiet_info | apply quiet_ret
    | apply quiet_log_summaries
    | apply quiet_bind; [| intros ?]
    | match goal with |- quiet (let '(_, _) := ?x in _) => destruct x end
    | match goal with |- quiet (if ?b then _ else _) => destruct b end ].

(** Whatever follows [_read_gmsh_file] without reading, one file is read. *)
Lemma reads_after_gmsh {A} (f : string)
    (k : Points * Cells * CellInfo * PhysNames -> run Exn A) :
  (forall x, quiet (k x)) ->
  files_read (_read_gmsh_file f ≫= k) = [f].
Proof.
  intros Hk. rewrite files_read_bind.
  change (files_read (_read_gmsh_file f)) with [f].
  destruct (_read_gmsh_file f).1; simpl; [|done].
  by rewrite Hk.
Qed.

Lemma triangle_grid_from_gmsh_reads f c kw :
  files_read (triangle_grid_from_gmsh f c kw) = [gmsh_out_file f].
Proof.
  unfold triangle_grid_from_gmsh. apply reads_after_gmsh.
  intros [[[pts cells] cell_info] phys_names]. quiet_steps.
Qed.

Lemma line_grid_from_gmsh_reads f c kw :
  files_read (line_grid_from_gmsh f c kw) = [gmsh_out_file f].
Proof.
  unfold line_grid_from_gmsh. apply reads_after_gmsh.
  intros [[[pts cells] cell_info] phys_names]. quiet_steps.
Qed.

Lemma tetrahedral_grid_from_gmsh_reads f c kw :
  files_read (tetrahedral_grid_from_gmsh f c kw) = [gmsh_out_file f].
Proof.
  unfold tetrahedral_grid_from_gmsh. apply reads_after_gmsh.
  intros [[[pts cells] cell_info] phys_names]. quiet_steps.
Qed.

Lemma triangle_grid_embedded_reads f :
  files_read (triangle_grid_embedded f) = [embedded_out_file f].
Proof.
  unfold triangle_grid_embedded. apply reads_after_gmsh.
  intros [[[pts cells] cell_info] phys_names]. quiet_steps.
Qed.

(** C9, as amended.  Each of [triangle_grid_from_gmsh],
    [line_grid_from_gmsh] and [tetrahedral_grid_from_gmsh] reads exactly
    one file: for an input [name + ".msh"] the file [name + ".msh"] (the
    suffix is removed once and appended again), and for an input [name]
    that does not end with [".msh"] the file [name + ".msh"]; so for such a
    [name] the calls with [name] and with [name + ".msh"] read the same
    file.  [triangle_grid_embedded] reads [name + ".msh"] for the inputs
    [name + ".geo"] and [name + ".msh"], and for an input [name] that ends
    with neither suffix. *)
Theorem gmsh_file_read (name : string) (c : option (list Z)) (kw : kwargs) :
  (files_read (triangle_grid_from_gmsh (name +:+ ".msh") c kw) = [name +:+ ".msh"]
   /\ files_read (line_grid_from_gmsh (name +:+ ".msh") c kw) = [name +:+ ".msh"]
   /\ files_read (tetrahedral_grid_from_gmsh (name +:+ ".msh") c kw)
      = [name +:+ ".msh"])
  /\ (endswith name ".msh" = false ->
      files_read (triangle_grid_from_gmsh name c kw) = [name +:+ ".msh"]
      /\ files_read (line_grid_from_gmsh name c kw) = [name +:+ ".msh"]
      /\ files_read (tetrahedral_grid_from_gmsh name c kw) = [name +:+ ".msh"]
      /\ files_read (triangle_grid_from_gmsh name c kw)
         = files_read (triangle_grid_from_gmsh (name +:+ ".msh") c kw)
      /\ files_read (line_grid_from_gmsh name c kw)
         = files_read (line_grid_from_gmsh (name +:+ ".msh") c kw)
      /\ files_read (tetrahedral_grid_from_gmsh name c kw)
         = files_read (tetrahedral_grid_from_gmsh (name +:+ ".msh") c kw))
  /\ files_read (triangle_grid_embedded (name +:+ ".geo")) = [name +:+ ".msh"]
  /\ files_read (triangle_grid_embedded (name +:+ ".msh")) = [name +:+ ".msh"]
  /\ (endswith name ".geo" = false -> endswith name ".msh" = false ->
      files_read (triangle_grid_embedded name) = [name +:+ ".msh"]).
Proof.
  rewrite !triangle_grid_from_gmsh_reads, !line_grid_from_gmsh_reads,
    !tetrahedral_grid_from_gmsh_reads, !triangle_grid_embedded_reads.
  rewrite gmsh_out_file_msh, embedded_out_file_geo, embedded_out_file_msh.
  repeat split; try done.
  all: try (by rewrite gmsh_out_file_other).
  intros Hg Hm. by rewrite embedded_out_file_other.
Qed.

(** C10.  With [constraints=None], [triangle_grid_from_gmsh] and
    [line_grid_from_gmsh] do what they do with an empty integer array, for
    every file name and all keyword arguments: same result or exception,
    same file read and, for the same reading of the clock, same
    messages. *)
Theorem constraints_none_is_empty (file_name : string) (kw : kwargs) :
  triangle_grid_from_gmsh file_name None kw
  = triangle_grid_from_gmsh file_name (Some []) kw
  /\ line_grid_from_gmsh file_name None kw
     = line_grid_from_gmsh file_name (Some []) kw.
Proof. split; reflexivity. Qed.

End Traces.

(** The calls with ["grid"] and ["grid.msh"] read the same file. *)
Lemma gmsh_file_read_witness :
  endswith "grid" ".msh" = false
  /\ files_read (triangle_grid_from_gmsh (env := example_env) "grid" None ∅)
     = files_read (triangle_grid_from_gmsh (env := example_env)
                     ("grid" +:+ ".msh") None ∅).
Proof.
  split; [reflexivity|].
  destruct (gmsh_file_read (env := example_env) "grid" None ∅) as (_ & H & _).
  destruct (H eq_refl) as (_ & _ & _ & Heq & _). exact Heq.
Defined.

(** C9, as stated, fails for a name that itself ends with [".msh"]: the
    call with ["a.msh"] reads ["a.msh"], the call with ["a.msh.msh"] reads
    ["a.msh.msh"]. *)
Lemma msh_stem_reads_other_file :
  files_read (triangle_grid_from_gmsh (env := example_env) "a.msh" None ∅)
  = ["a.msh"]
  /\ files_read (triangle_grid_from_gmsh (env := example_env)
                   ("a.msh" +:+ ".msh") None ∅)
     = ["a.msh.msh"]
  /\ files_read (triangle_grid_from_gmsh (env := example_env) "a.msh" None ∅)
     <> files_read (triangle_grid_from_gmsh (env := example_env)
                      ("a.msh" +:+ ".msh") None ∅).
Proof. repeat split; try reflexivity. discriminate. Qed.

End SimplexFacts.

(** ** The mesh graph and the assembly engine *)

Module MixedDimFacts.

Import MixedDim.

(** *** Orders are permutations *)

Lemma insert_by_Permutation {A} (leb : A -> A -> bool) (x : A) (l : list A) :
  insert_by leb x l ≡ₚ x :: l.
Proof.
  induction l as [|y r IH]; simpl; [done|].
  destruct (leb x y); [done|].
  rewrite IH. apply Permutation_swap.
Qed.

Lemma sort_by_Permutation {A} (leb : A -> A -> bool) (l : list A) :
  sort_by leb l ≡ₚ l.
Proof.
  induction l as [|x l IH]; simpl; [done|].
  rewrite insert_by_Permutation. by rewrite IH.
Qed.

Lemma ordered_nodes_Permutation (g : MeshGraph) : ordered_nodes g ≡ₚ nodes g.
Proof.
  unfold ordered_nodes.
  destruct (node_order g); [apply sort_by_Permutation | done].
Qed.

Lemma ordered_edges_Permutation (g : MeshGraph) : ordered_edges g ≡ₚ edges g.
Proof.
  unfold ordered_edges.
  destruct (node_order g); [apply sort_by_Permutation | done].
Qed.

Lemma sum_list_app (l k : list nat) :
  sum_list (l ++ k) = sum_list l + sum_list k.
Proof. induction l as [|x l IH]; simpl; lia. Qed.

Lemma sum_list_Permutation (l k : list nat) :
  l ≡ₚ k -> sum_list l = sum_list k.
Proof. induction 1; simpl; lia. Qed.

(** *** Contiguous ranges *)

Lemma length_dof_ranges (start : nat) (sizes : list nat) :
  length (dof_ranges start sizes) = length sizes.
Proof.
  revert start; induction sizes as [|n r IH]; intros start; simpl;
    [done | by rewrite IH].
Qed.

(** Range [i] starts where the sizes before it end. *)
Lemma dof_ranges_lookup (start : nat) (sizes : list nat) (i n : nat) :
  sizes !! i = Some n ->
  dof_ranges start sizes !! i
  = Some (start + sum_list (take i sizes),
          start + sum_list (take i sizes) + n).
Proof.
  revert start i; induction sizes as [|m r IH]; intros start i H; [done|].
  destruct i as [|i]; simpl in *.
  - injection H as ->. f_equal. f_equal; lia.
  - rewrite (IH _ _ H). f_equal. f_equal; lia.
Qed.

Lemma dof_ranges_lookup_inv (start : nat) (sizes : list nat) (i : nat)
    (r : nat * nat) :
  dof_ranges start sizes !! i = Some r ->
  exists n, sizes !! i = Some n
            /\ r = (start + sum_list (take i sizes),
                    start + sum_list (take i sizes) + n).
Proof.
  intros H.
  assert (Hi : i < length sizes).
  { rewrite <- (length_dof_ranges start). by apply lookup_lt_Some in H. }
  destruct (lookup_lt_is_Some_2 _ _ Hi) as [n Hn].
  exists n. split; [done|].
  rewrite (dof_ranges_lookup _ _ _ _ Hn) in H. by injection H.
Qed.

Lemma sum_list_take_le (sizes : list nat) (i j n : nat) :
  i < j -> sizes !! i = Some n ->
  sum_list (take i sizes) + n <= sum_list (take j sizes).
Proof.
  revert i j; induction sizes as [|m r IH]; intros i j Hij H; [done|].
  destruct j as [|j]; [lia|]. destruct i as [|i]; simpl in *.
  - injection H as ->. lia.
  - specialize (IH i j ltac:(lia) H). lia.
Qed.

Lemma dof_ranges_disjoint (start : nat) (sizes : list nat) (i j : nat)
    (r1 r2 : nat * nat) :
  i <> j ->
  dof_ranges start sizes !! i = Some r1 ->
  dof_ranges start sizes !! j = Some r2 ->
  disjoint_ranges r1 r2.
Proof.
  intros Hij (n1 & H1 & ->)%dof_ranges_lookup_inv
             (n2 & H2 & ->)%dof_ranges_lookup_inv.
  unfold disjoint_ranges; simpl.
  destruct (Nat.lt_total i j) as [Hlt | [-> | Hlt]]; [| done |].
  - left. pose proof (sum_list_take_le _ _ _ _ Hlt H1). lia.
  - right. pose proof (sum_list_take_le _ _ _ _ Hlt H2). lia.
Qed.

Lemma dof_ranges_cover (start : nat) (sizes : list nat) (k : nat) :
  start <= k < start + sum_list sizes <->
  exists r, r ∈ dof_ranges start sizes /\ in_range r k.
Proof.
  revert start; induction sizes as [|n r IH]; intros start; simpl.
  - split; [lia|]. intros (x & Hx & _). by apply elem_of_nil in Hx.
  - split.
    + intros Hk. destruct (decide (k < start + n)) as [Hlt | Hge].
      * exists (start, start + n).
        split; [left | unfold in_range; simpl; lia].
      * destruct (proj1 (IH (start + n))) as (x & Hx & Hin); [lia|].
        exists x. split; [by right | done].
    + intros (x & Hx & Hin). apply elem_of_cons in Hx as [-> | Hx].
      * unfold in_range in Hin; simpl in Hin. lia.
      * pose proof (proj2 (IH (start + n)) (ex_intro _ x (conj Hx Hin))). lia.
Qed.

Lemma dof_ranges_sizes (start : nat) (sizes : list nat) :
  (fun r => r.2 - r.1) <$> dof_ranges start sizes = sizes.
Proof.
  revert start; induction sizes as [|n r IH]; intros start; simpl; [done|].
  rewrite IH. f_equal. lia.
Qed.

Section DofMap.

Context {D : Discretization} {C : Coupling}.

Lemma length_dof_owners (g : MeshGraph) :
  length (dof_owners g) = length (local_sizes g).
Proof. unfold dof_owners, local_sizes. by rewrite !length_app, !length_fmap. Qed.

Lemma dof_map_owners (g : MeshGraph) : (dof_map g).*1 = dof_owners g.
Proof.
  unfold dof_map. apply fst_zip.
  rewrite length_dof_ranges, length_dof_owners. lia.
Qed.

Lemma dof_map_ranges (g : MeshGraph) :
  (dof_map g).*2 = dof_ranges 0 (local_sizes g).
Proof.
  unfold dof_map. apply snd_zip.
  rewrite length_dof_ranges, length_dof_owners. lia.
Qed.

(** C3.  For every mesh graph, the DOF map built after
    [assign_node_ordering] gives every node and every edge one range
    [lo, hi) with [lo <= hi]; the length of a range is the local size of
    its owner; the ranges are pairwise disjoint; their union is
    [0, total_dof); and [total_dof] is the sum of the local sizes over all
    nodes and edges. *)
Theorem dof_map_partitions (g : MeshGraph) :
  let g' := assign_node_ordering g in
  let dm := dof_map g' in
  dm.*1 ≡ₚ ((fun n => NodeOwner n.1) <$> nodes g) ++ (edge_owner <$> edges g)
  /\ (fun x => x.2.2 - x.2.1) <$> dm = local_sizes g'
  /\ (forall i j x y, i <> j -> dm !! i = Some x -> dm !! j = Some y ->
        disjoint_ranges x.2 y.2)
  /\ (forall k, k < total_dof g' <-> exists x, x ∈ dm /\ in_range x.2 k)
  /\ total_dof g'
     = sum_list ((fun n => ndof n.2) <$> nodes g)
       + sum_list (edge_ndof <$> edges g)
  /\ Forall (fun x => x.2.1 <= x.2.2) dm.
Proof.
  intros g' dm.
  assert (Hn : ordered_nodes g' ≡ₚ nodes g)
    by apply (ordered_nodes_Permutation g').
  assert (He : ordered_edges g' ≡ₚ edges g)
    by apply (ordered_edges_Permutation g').
  split; [|split; [|split; [|split; [|split]]]].
  - subst dm. rewrite dof_map_owners. unfold dof_owners. by rewrite Hn, He.
  - transitivity ((fun r => r.2 - r.1) <$> dm.*2).
    + rewrite <- list_fmap_compose. by apply list_fmap_ext.
    + subst dm. rewrite dof_map_ranges. apply dof_ranges_sizes.
  - intros i j x y Hij Hx Hy.
    apply (dof_ranges_disjoint 0 (local_sizes g') i j); [done| |].
    + rewrite <- dof_map_ranges, list_lookup_fmap. fold dm. by rewrite Hx.
    + rewrite <- dof_map_ranges, list_lookup_fmap. fold dm. by rewrite Hy.
  - intros k. unfold total_dof.
    transitivity (0 <= k < 0 + sum_list (local_sizes g')); [lia|].
    rewrite dof_ranges_cover, <- dof_map_ranges. fold dm. split.
    + intros (r & Hr & Hin).
      apply list_elem_of_fmap in Hr as (x & -> & Hx). eauto.
    + intros (x & Hx & Hin). exists x.2. split; [|done].
      apply list_elem_of_fmap. eauto.
  - unfold total_dof, local_sizes. rewrite sum_list_app.
    f_equal; apply sum_list_Permutation; by apply fmap_Permutation.
  - apply Forall_forall. intros x Hx.
    apply list_elem_of_lookup in Hx as [i Hi].
    assert (Hr : dof_ranges 0 (local_sizes g') !! i = Some x.2).
    { rewrite <- dof_map_ranges, list_lookup_fmap. fold dm. by rewrite Hi. }
    apply dof_ranges_lookup_inv in Hr as (n & _ & ->). simpl. lia.
Qed.

End DofMap.

(** *** Traversals that may fail *)




(** *** Entries of assembled matrices and vectors *)









(** *** The property store *)





(** *** The assembly engine *)

Section Failures.

Context {D : Discretization} {C : Coupling}.










End Failures.



(** *** The upwind coupling law *)

Lemma donor_zero (q : Q) : (q == 0)%Q -> donor q = NoTransport.
Proof.
  intros H. unfold donor.
  replace (0 ?= q)%Q with Eq; [done|].
  symmetry. apply Qeq_alt. by symmetry.
Qed.

(** A mortar face without flux contributes no triple to any block. *)
Lemma face_coupling_zero (i : Interface) (k : nat) (q : Q) :
  (q == 0)%Q ->
  face_coupling i k q
  = {| on_parent_parent := []; on_parent_child := [];
       on_child_parent := []; on_child_child := [] |}.
Proof. intros H. unfold face_coupling. by rewrite (donor_zero q H). Qed.

Lemma row_without_ne (k j : nat) (A : spmatrix) :
  j <> k -> row (without_row k A) j = row A j.
Proof.
  intros Hjk. unfold row, without_row. cbn [entries].
  induction (entries A) as [|t es IH]; [done|].
  destruct (decide (t.1.1 <> k)) as [Ht|Ht].
  - rewrite filter_cons_True by done. csimpl. by rewrite IH.
  - rewrite filter_cons_False by done. csimpl. rewrite IH.
    destruct (Nat.eqb_spec t.1.1 j) as [Heq|_]; [|done].
    exfalso. apply Ht. congruence.
Qed.

Lemma face_coupling_without_ne (i : Interface) (k j : nat) (q : Q) :
  j <> k -> face_coupling (without_face k i) j q = face_coupling i j q.
Proof.
  intros Hjk. unfold face_coupling, without_face. cbn [parent_projection
    child_projection]. by rewrite !row_without_ne.
Qed.

Lemma coupling_blocks_without (i : Interface) (k : nat)
    (fs : list FaceCoupling) :
  coupling_blocks (without_face k i) fs = coupling_blocks i fs.
Proof. reflexivity. Qed.

Lemma elem_of_concat_fmap {A B} (f : A -> list B) (l : list A) (y : B) :
  y ∈ concat (f <$> l) <-> exists x, x ∈ l /\ y ∈ f x.
Proof.
  induction l as [|x l IH].
  - split; [by intros ?%elem_of_nil | by intros (? & ?%elem_of_nil & _)].
  - rewrite fmap_cons. cbn [concat]. rewrite elem_of_app, IH. split.
    + intros [H | (z & Hz & Hy)]; [exists x | exists z];
        (split; [by left || by right | done]).
    + intros (z & [->|Hz]%elem_of_cons & Hy); [by left | right; eauto].
Qed.

(** C6.  A mortar face whose stored normal flux is exactly zero
    contributes nothing to the upwind coupling: (1) the operator returns
    the same four blocks as on the interface without that face, so both
    off-diagonal contributions of the face are zero and the diagonals are
    unaffected; (2) every term of the four blocks the operator returns is
    the contribution of a mortar face other than this one, with a flux
    that is not zero; (3) the operator does return blocks when it is given
    one flux per mortar face. *)
Theorem zero_flux_contributes_nothing (i : Interface) (sp sc : LocalSystem)
    (flux : list Q) (parent_props child_props : list value) (k : nat)
    (x : Q) :
  flux !! k = Some x ->
  (x == 0)%Q ->
  upwind_coupling (without_face k i) sp sc [VArray flux] parent_props
    child_props
  = upwind_coupling i sp sc [VArray flux] parent_props child_props
  /\ (forall B t,
        upwind_coupling i sp sc [VArray flux] parent_props child_props
        = Some B ->
        t ∈ entries (parent_child B) ++ entries (child_parent B)
            ++ entries (parent_parent B) ++ entries (child_child B) ->
        exists j q,
          j <> k /\ flux !! j = Some q /\ ~ (q == 0)%Q
          /\ t ∈ on_parent_child (face_coupling i j q)
                 ++ on_child_parent (face_coupling i j q)
                 ++ on_parent_parent (face_coupling i j q)
                 ++ on_child_child (face_coupling i j q))
  /\ (length flux = num_faces (mortar i) ->
      exists B,
        upwind_coupling i sp sc [VArray flux] parent_props child_props
        = Some B).
Proof.
  intros Hk Hx. split; [|split].
  - unfold upwind_coupling.
    change (num_faces (mortar (without_face k i)))
      with (num_faces (mortar i)).
    destruct (length flux =? num_faces (mortar i))%nat; [|done].
    f_equal. rewrite coupling_blocks_without. f_equal.
    apply imap_ext. intros j q Hj.
    destruct (decide (j = k)) as [->|Hjk].
    + rewrite Hk in Hj. injection Hj as <-.
      by rewrite !face_coupling_zero.
    + by apply face_coupling_without_ne.
  - intros B t HB Ht. unfold upwind_coupling in HB.
    destruct (length flux =? num_faces (mortar i))%nat; [|done].
    injection HB as <-. unfold coupling_blocks in Ht. cbn [entries
      parent_child child_parent parent_parent child_child] in Ht.
    assert (exists fc,
              fc ∈ imap (face_coupling i) flux
              /\ t ∈ on_parent_child fc ++ on_child_parent fc
                     ++ on_parent_parent fc ++ on_child_child fc)
      as (fc & Hfc & Hin).
    { rewrite !elem_of_app, !elem_of_concat_fmap in Ht.
      destruct Ht as [(fc & ? & ?) | [(fc & ? & ?) | [(fc & ? & ?)
                     | (fc & ? & ?)]]];
        exists fc; (split; [done|]); rewrite !elem_of_app; eauto. }
    apply elem_of_lookup_imap in Hfc as (j & q & -> & Hj).
    exists j, q.
    assert (~ (q == 0)%Q) as Hq.
    { intros Hq. rewrite (face_coupling_zero i j q Hq) in Hin.
      simpl in Hin. by apply elem_of_nil in Hin. }
    split; [|done]. intros ->. rewrite Hk in Hj. injection Hj as <-. done.
  - intros Hlen. unfold upwind_coupling.
    rewrite (proj2 (Nat.eqb_eq _ _) Hlen). by eexists.
Qed.

End MixedDimFacts.

(** ** Examples on the graph of two meshes *)

Module MixedDimExamples.

Import MixedDim.

(** The ranges of the two meshes of the example do not meet. *)
Lemma dof_map_partitions_witness :
  dof_map (D := CellWeights) (C := UpwindCoupling)
    (assign_node_ordering example_graph)
  = [(NodeOwner 0, (0, 8)); (NodeOwner 1, (8, 10)); (EdgeOwner 0 1, (10, 10))]
  /\ disjoint_ranges (0, 8) (8, 10).
Proof.
  split; [reflexivity|].
  destruct (MixedDimFacts.dof_map_partitions (D := CellWeights)
              (C := UpwindCoupling) example_graph) as (_ & _ & H & _).
  exact (H 0 1 (NodeOwner 0, (0, 8)) (NodeOwner 1, (8, 10))
           ltac:(discriminate) eq_refl eq_refl).
Defined.


(** Mortar face 1 of the example carries no flux. *)
Lemma zero_flux_contributes_nothing_witness :
  upwind_coupling (without_face 1 example_interface)
    (SpMatrix 0 0 [], []) (SpMatrix 0 0 [], [])
    [VArray [2%Q; 0%Q; 2%Q; (-2)%Q]] [] []
  = upwind_coupling example_interface
      (SpMatrix 0 0 [], []) (SpMatrix 0 0 [], [])
      [VArray [2%Q; 0%Q; 2%Q; (-2)%Q]] [] [].
Proof.
  exact (proj1 (MixedDimFacts.zero_flux_contributes_nothing example_interface
                  (SpMatrix 0 0 [], []) (SpMatrix 0 0 [], [])
                  [2%Q; 0%Q; 2%Q; (-2)%Q] [] [] 1 0%Q eq_refl (Qeq_refl 0))).
Defined.

End MixedDimExamples.

(** ** The entry points of porepy.fracs.simplex, continued *)

Module EntryPointFacts.

Import Simplex.

Section Runs.

Context {env : Collaborators}.

(** The loop over the dimensions never fails and logs one message per
    non-empty dimension. *)
Lemma log_summaries_run (grids : list (list Grid)) :
  log_summaries grids = (Returns tt, Info <$> omap grid_summary grids).
Proof.
  induction grids as [|g_set rest IH]; [done|].
  unfold log_summaries; fold log_summaries. simpl omap.
  destruct (grid_summary g_set) as [s|]; [|done].
  rewrite IH. done.
Qed.

Lemma messages_Info {A} (o : outcome Exn A) (files : list string)
    (msgs : list string) :
  messages (o, (Read <$> files) ++ (Info <$> msgs)) = msgs.
Proof.
  unfold messages. cbn [snd]. rewrite omap_app.
  replace (omap _ (Read <$> files)) with (@nil string).
  - rewrite app_nil_l. induction msgs as [|m msgs IH]; [done|].
    csimpl. by rewrite IH.
  - induction files as [|x files IH]; [done|]. by csimpl.
Qed.

(** The run of [triangle_grid_from_gmsh], by the outcome of each
    collaborator. *)
Lemma triangle_grid_from_gmsh_run (f : string) (c : option (list Z))
    (kw : kwargs) :
  triangle_grid_from_gmsh f c kw
  = match meshio_read (gmsh_out_file f) with
    | Raises e => (Raises e, [Read (gmsh_out_file f)])
    | Returns (pts, cells, cell_info, phys_names) =>
        match create_2d_grids pts cells false phys_names cell_info None,
              create_1d_grids pts cells phys_names cell_info (Some FRACTURE)
                (Some (default_constraints c)) kw,
              create_0d_grids pts cells phys_names cell_info with
        | Returns g_2d, Returns (g_1d, _), Returns g_0d =>
            (Returns [g_2d; g_1d; g_0d],
             [Read (gmsh_out_file f)]
             ++ (Info <$> ["Create grids of various dimensions";
                           "Grid creation completed. Elapsed time "
                           +:+ elapsed]
                          ++ omap grid_summary [g_2d; g_1d; g_0d]))
        | Raises e, _, _ | Returns _, Raises e, _
        | Returns _, Returns _, Raises e =>
            (Raises e,
             [Read (gmsh_out_file f);
              Info "Create grids of various dimensions"])
        end
    end.
Proof.
  unfold triangle_grid_from_gmsh, _read_gmsh_file.
  destruct (meshio_read _) as [[[[pts cells] cell_info] phys_names]|e];
    [|done].
  unfold mbind, run_bind, bind, lift, logger_info, mret, run_ret, ret.
  cbv beta iota zeta.
  destruct (create_2d_grids _ _ _ _ _ _) as [g_2d|e]; [|done].
  destruct (create_1d_grids _ _ _ _ _ _ _) as [[g_1d aux]|e]; [|done].
  destruct (create_0d_grids _ _ _ _) as [g_0d|e]; [|done].
  rewrite log_summaries_run. simpl. by rewrite app_nil_r.
Qed.


Lemma line_grid_from_gmsh_run (f : string) (c : option (list Z))
    (kw : kwargs) :
  line_grid_from_gmsh f c kw
  = match meshio_read (gmsh_out_file f) with
    | Raises e => (Raises e, [Read (gmsh_out_file f)])
    | Returns (pts, cells, cell_info, phys_names) =>
        match create_1d_grids pts cells phys_names cell_info (Some FRACTURE)
                (Some (default_constraints c)) kw,
              create_0d_grids pts cells phys_names cell_info with
        | Returns (g_1d, _), Returns g_0d =>
            (Returns [g_1d; g_0d],
             [Read (gmsh_out_file f)]
             ++ (Info <$> ["Create grids of various dimensions";
                           "Grid creation completed. Elapsed time "
                           +:+ elapsed]
                          ++ omap grid_summary [g_1d; g_0d]))
        | Raises e, _ | Returns _, Raises e =>
            (Raises e,
             [Read (gmsh_out_file f);
              Info "Create grids of various dimensions"])
        end
    end.
Proof.
  unfold line_grid_from_gmsh, _read_gmsh_file.
  destruct (meshio_read _) as [[[[pts cells] cell_info] phys_names]|e];
    [|done].
  unfold mbind, run_bind, bind, lift, logger_info, mret, run_ret, ret.
  cbv beta iota zeta.
  destruct (create_1d_grids _ _ _ _ _ _ _) as [[g_1d aux]|e]; [|done].
  destruct (create_0d_grids _ _ _ _) as [g_0d|e]; [|done].
  rewrite log_summaries_run. simpl. by rewrite app_nil_r.
Qed.

Lemma tetrahedral_grid_from_gmsh_run (f : string) (c : option (list Z))
    (kw : kwargs) :
  tetrahedral_grid_from_gmsh f c kw
  = match meshio_read (gmsh_out_file f) with
    | Raises e => (Raises e, [Read (gmsh_out_file f)])
    | Returns (pts, cells, cell_info, phys_names) =>
        match create_3d_grids pts cells,
              create_2d_grids pts cells true phys_names cell_info c,
              create_1d_grids pts cells phys_names cell_info None None ∅,
              create_0d_grids pts cells phys_names cell_info with
        | Returns g_3d, Returns g_2d, Returns (g_1d, _), Returns g_0d =>
            (Returns [g_3d; g_2d; g_1d; g_0d],
             [Read (gmsh_out_file f)]
             ++ (Info <$>
                   if match kw !! "verbose" with
                      | Some v => positive_value v
                      | None => true
                      end
                   then ("Grid creation completed. Elapsed time "
                         +:+ elapsed)
                        :: omap grid_summary [g_3d; g_2d; g_1d; g_0d]
                   else []))
        | Raises e, _, _, _ | Returns _, Raises e, _, _
        | Returns _, Returns _, Raises e, _
        | Returns _, Returns _, Returns _, Raises e =>
            (Raises e, [Read (gmsh_out_file f)])
        end
    end.
Proof.
  unfold tetrahedral_grid_from_gmsh, _read_gmsh_file.
  destruct (meshio_read _) as [[[[pts cells] cell_info] phys_names]|e];
    [|done].
  unfold mbind, run_bind, bind, lift, logger_info, mret, run_ret, ret.
  cbv beta iota zeta.
  destruct (create_3d_grids _ _) as [g_3d|e]; [|done].
  destruct (create_2d_grids _ _ _ _ _ _) as [g_2d|e]; [|done].
  destruct (create_1d_grids _ _ _ _ _ _ _) as [[g_1d aux]|e]; [|done].
  destruct (create_0d_grids _ _ _ _) as [g_0d|e]; [|done].
  destruct (match kw !! "verbose" with
            | Some v => positive_value v
            | None => true
            end).
  - rewrite log_summaries_run. simpl. by rewrite app_nil_r.
  - done.
Qed.

Lemma triangle_grid_embedded_run (f : string) :
  triangle_grid_embedded f
  = match meshio_read (embedded_out_file f) with
    | Raises e => (Raises e, [Read (embedded_out_file f)])
    | Returns (pts, cells, cell_info, phys_names) =>
        match create_2d_grids pts cells true phys_names cell_info None,
              create_1d_grids pts cells phys_names cell_info None None ∅,
              create_0d_grids pts cells phys_names cell_info with
        | Returns g_2d, Returns (g_1d, _), Returns g_0d =>
            (Returns [g_2d; g_1d; g_0d],
             [Read (embedded_out_file f)]
             ++ (Info <$> [newline] ++ omap grid_summary [g_2d; g_1d; g_0d]
                          ++ [newline]))
        | Raises e, _, _ | Returns _, Raises e, _
        | Returns _, Returns _, Raises e =>
            (Raises e, [Read (embedded_out_file f)])
        end
    end.
Proof.
  unfold triangle_grid_embedded, _read_gmsh_file.
  destruct (meshio_read _) as [[[[pts cells] cell_info] phys_names]|e];
    [|done].
  unfold mbind, run_bind, bind, lift, logger_info, mret, run_ret, ret.
  cbv beta iota zeta.
  destruct (create_2d_grids _ _ _ _ _ _) as [g_2d|e]; [|done].
  destruct (create_1d_grids _ _ _ _ _ _ _) as [[g_1d aux]|e]; [|done].
  destruct (create_0d_grids _ _ _ _) as [g_0d|e]; [|done].
  rewrite log_summaries_run.
  generalize (omap grid_summary [g_2d; g_1d; g_0d]). intros msgs.
  simpl. by rewrite fmap_app.
Qed.


(** *** File names *)

Lemma geo_is_not_msh (name : string) :
  endswith (name +:+ ".geo") ".msh" = false.
Proof.
  rewrite <- SimplexFacts.last4_eqb_endswith by done.
  by rewrite SimplexFacts.last4_append.
Qed.

(** X1.  The name of the file read ends with [".msh"], and the call with that
    name reads the same file: normalising a file name twice changes
    nothing. *)
Theorem file_read_is_normalised (f : string) (c : option (list Z))
    (kw : kwargs) :
  (exists out,
     files_read (triangle_grid_from_gmsh f c kw) = [out]
     /\ endswith out ".msh" = true
     /\ files_read (triangle_grid_from_gmsh out c kw) = [out])
  /\ (exists out,
        files_read (line_grid_from_gmsh f c kw) = [out]
        /\ endswith out ".msh" = true
        /\ files_read (line_grid_from_gmsh out c kw) = [out])
  /\ (exists out,
        files_read (tetrahedral_grid_from_gmsh f c kw) = [out]
        /\ endswith out ".msh" = true
        /\ files_read (tetrahedral_grid_from_gmsh out c kw) = [out])
  /\ (exists out,
        files_read (triangle_grid_embedded f) = [out]
        /\ endswith out ".msh" = true
        /\ files_read (triangle_grid_embedded out) = [out]).
Proof.
  rewrite SimplexFacts.triangle_grid_from_gmsh_reads,
    SimplexFacts.line_grid_from_gmsh_reads,
    SimplexFacts.tetrahedral_grid_from_gmsh_reads,
    SimplexFacts.triangle_grid_embedded_reads.
  assert (exists stem, gmsh_out_file f = stem +:+ ".msh") as [stem ->]
    by (unfold gmsh_out_file; by eexists).
  assert (exists stem, embedded_out_file f = stem +:+ ".msh") as [stem' ->]
    by (unfold embedded_out_file; by eexists).
  repeat split; eexists; (split; [reflexivity|]);
    (split; [apply SimplexFacts.endswith_append|]).
  - by rewrite SimplexFacts.triangle_grid_from_gmsh_reads,
      SimplexFacts.gmsh_out_file_msh.
  - by rewrite SimplexFacts.line_grid_from_gmsh_reads,
      SimplexFacts.gmsh_out_file_msh.
  - by rewrite SimplexFacts.tetrahedral_grid_from_gmsh_reads,
      SimplexFacts.gmsh_out_file_msh.
  - by rewrite SimplexFacts.triangle_grid_embedded_reads,
      SimplexFacts.embedded_out_file_msh.
Qed.

(** X2.  [triangle_grid_embedded] and [triangle_grid_from_gmsh] read the same
    file exactly for the names that do not end with [".geo"]: only the
    former takes that suffix off. *)
Theorem embedded_reads_same_file_iff_not_geo (f : string)
    (c : option (list Z)) (kw : kwargs) :
  files_read (triangle_grid_embedded f)
  = files_read (triangle_grid_from_gmsh f c kw)
  <-> endswith f ".geo" = false.
Proof.
  rewrite SimplexFacts.triangle_grid_from_gmsh_reads,
    SimplexFacts.triangle_grid_embedded_reads.
  destruct (endswith f ".geo") eqn:Hgeo.
  - split; [|done]. intros [= Heq]. exfalso.
    apply SimplexFacts.endswith_inv in Hgeo. simpl String.length in Hgeo.
    rewrite Hgeo in Heq.
    rewrite SimplexFacts.embedded_out_file_geo in Heq.
    rewrite SimplexFacts.gmsh_out_file_other in Heq
      by apply geo_is_not_msh.
    apply (f_equal String.length) in Heq.
    rewrite !SimplexFacts.length_append in Heq. simpl in Heq. lia.
  - split; [done|]. intros _. f_equal.
    destruct (endswith f ".msh") eqn:Hmsh.
    + apply SimplexFacts.endswith_inv in Hmsh. simpl String.length in Hmsh.
      rewrite Hmsh.
      by rewrite SimplexFacts.embedded_out_file_msh,
        SimplexFacts.gmsh_out_file_msh.
    + by rewrite SimplexFacts.embedded_out_file_other,
        SimplexFacts.gmsh_out_file_other.
Qed.


(** *** The log and the outcome *)

(** X3.  A call that raises has logged no completion and no summary: nothing
    at all when the file could not be read, and for
    [triangle_grid_embedded] and [tetrahedral_grid_from_gmsh] nothing in
    any case. *)
Theorem raising_run_logs_no_summary (f : string) (c : option (list Z))
    (kw : kwargs) (e : Exn) :
  ((triangle_grid_from_gmsh f c kw).1 = Raises e ->
   messages (triangle_grid_from_gmsh f c kw)
   = match meshio_read (gmsh_out_file f) with
     | Returns _ => ["Create grids of various dimensions"]
     | Raises _ => []
     end)
  /\ ((line_grid_from_gmsh f c kw).1 = Raises e ->
      messages (line_grid_from_gmsh f c kw)
      = match meshio_read (gmsh_out_file f) with
        | Returns _ => ["Create grids of various dimensions"]
        | Raises _ => []
        end)
  /\ ((tetrahedral_grid_from_gmsh f c kw).1 = Raises e ->
      messages (tetrahedral_grid_from_gmsh f c kw) = [])
  /\ ((triangle_grid_embedded f).1 = Raises e ->
      messages (triangle_grid_embedded f) = []).
Proof.
  rewrite triangle_grid_from_gmsh_run, line_grid_from_gmsh_run,
    tetrahedral_grid_from_gmsh_run, triangle_grid_embedded_run.
  repeat split.
  - destruct (meshio_read _) as [[[[pts cells] cell_info] phys_names]|e'];
      [|done].
    destruct (create_2d_grids _ _ _ _ _ _); [|done].
    destruct (create_1d_grids _ _ _ _ _ _ _) as [[g_1d aux]|]; [|done].
    destruct (create_0d_grids _ _ _ _); done.
  - destruct (meshio_read _) as [[[[pts cells] cell_info] phys_names]|e'];
      [|done].
    destruct (create_1d_grids _ _ _ _ _ _ _) as [[g_1d aux]|]; [|done].
    destruct (create_0d_grids _ _ _ _); done.
  - destruct (meshio_read _) as [[[[pts cells] cell_info] phys_names]|e'];
      [|done].
    destruct (create_3d_grids _ _); [|done].
    destruct (create_2d_grids _ _ _ _ _ _); [|done].
    destruct (create_1d_grids _ _ _ _ _ _ _) as [[g_1d aux]|]; [|done].
    destruct (create_0d_grids _ _ _ _); done.
  - destruct (meshio_read (embedded_out_file f))
      as [[[[pts cells] cell_info] phys_names]|e']; [|done].
    destruct (create_2d_grids _ _ _ _ _ _); [|done].
    destruct (create_1d_grids _ _ _ _ _ _ _) as [[g_1d aux]|]; [|done].
    destruct (create_0d_grids _ _ _ _); done.
Qed.

(** X4.  A call that returns has one list per dimension (three, two, four and
    three of them) and has logged one summary for each list that is not
    empty, in the order of the result, after the messages of the
    function. *)
Theorem returned_grids_are_logged (f : string) (c : option (list Z))
    (kw : kwargs) (grids : list (list Grid)) :
  ((triangle_grid_from_gmsh f c kw).1 = Returns grids ->
   length grids = 3
   /\ messages (triangle_grid_from_gmsh f c kw)
      = ["Create grids of various dimensions";
         "Grid creation completed. Elapsed time " +:+ elapsed]
        ++ omap grid_summary grids)
  /\ ((line_grid_from_gmsh f c kw).1 = Returns grids ->
      length grids = 2
      /\ messages (line_grid_from_gmsh f c kw)
         = ["Create grids of various dimensions";
            "Grid creation completed. Elapsed time " +:+ elapsed]
           ++ omap grid_summary grids)
  /\ ((tetrahedral_grid_from_gmsh f c kw).1 = Returns grids ->
      length grids = 4
      /\ messages (tetrahedral_grid_from_gmsh f c kw)
         = if match kw !! "verbose" with
              | Some v => positive_value v
              | None => true
              end
           then ("Grid creation completed. Elapsed time " +:+ elapsed)
                :: omap grid_summary grids
           else [])
  /\ ((triangle_grid_embedded f).1 = Returns grids ->
      length grids = 3
      /\ messages (triangle_grid_embedded f)
         = [newline] ++ omap grid_summary grids ++ [newline]).
Proof.
  rewrite triangle_grid_from_gmsh_run, line_grid_from_gmsh_run,
    tetrahedral_grid_from_gmsh_run, triangle_grid_embedded_run.
  split; [|split; [|split]].
  - destruct (meshio_read _) as [[[[pts cells] cell_info] phys_names]|e'];
      [|done].
    destruct (create_2d_grids _ _ _ _ _ _); [|done].
    destruct (create_1d_grids _ _ _ _ _ _ _) as [[g_1d aux]|]; [|done].
    destruct (create_0d_grids _ _ _ _); [|done].
    intros [= <-]. split; [done|].
    apply (messages_Info _ [gmsh_out_file f]).
  - destruct (meshio_read _) as [[[[pts cells] cell_info] phys_names]|e'];
      [|done].
    destruct (create_1d_grids _ _ _ _ _ _ _) as [[g_1d aux]|]; [|done].
    destruct (create_0d_grids _ _ _ _); [|done].
    intros [= <-]. split; [done|].
    apply (messages_Info _ [gmsh_out_file f]).
  - destruct (meshio_read _) as [[[[pts cells] cell_info] phys_names]|e'];
      [|done].
    destruct (create_3d_grids _ _); [|done].
    destruct (create_2d_grids _ _ _ _ _ _); [|done].
    destruct (create_1d_grids _ _ _ _ _ _ _) as [[g_1d aux]|]; [|done].
    destruct (create_0d_grids _ _ _ _); [|done].
    intros [= <-]. split; [done|].
    apply (messages_Info _ [gmsh_out_file f]).
  - destruct (meshio_read (embedded_out_file f))
      as [[[[pts cells] cell_info] phys_names]|e']; [|done].
    destruct (create_2d_grids _ _ _ _ _ _); [|done].
    destruct (create_1d_grids _ _ _ _ _ _ _) as [[g_1d aux]|]; [|done].
    destruct (create_0d_grids _ _ _ _); [|done].
    intros [= <-]. split; [done|].
    apply (messages_Info _ [embedded_out_file f]).
Qed.

(** X5.  The keyword arguments of [tetrahedral_grid_from_gmsh] reach the log
    only: the grids or the exception and the file read are the same for
    all of them, and with a [verbose] that is not positive nothing is
    logged. *)
Theorem tetrahedral_kwargs_reach_the_log_only (f : string)
    (c : option (list Z)) (kw kw' : kwargs) :
  (tetrahedral_grid_from_gmsh f c kw).1
  = (tetrahedral_grid_from_gmsh f c kw').1
  /\ files_read (tetrahedral_grid_from_gmsh f c kw)
     = files_read (tetrahedral_grid_from_gmsh f c kw')
  /\ (forall v, kw !! "verbose" = Some v -> positive_value v = false ->
                messages (tetrahedral_grid_from_gmsh f c kw) = []).
Proof.
  split; [|split].
  - rewrite !tetrahedral_grid_from_gmsh_run.
    destruct (meshio_read _) as [[[[pts cells] cell_info] phys_names]|e'];
      [|done].
    destruct (create_3d_grids _ _); [|done].
    destruct (create_2d_grids _ _ _ _ _ _); [|done].
    destruct (create_1d_grids _ _ _ _ _ _ _) as [[g_1d aux]|]; [|done].
    destruct (create_0d_grids _ _ _ _); done.
  - by rewrite !SimplexFacts.tetrahedral_grid_from_gmsh_reads.
  - intros v Hv Hpos. rewrite tetrahedral_grid_from_gmsh_run, Hv, Hpos.
    destruct (meshio_read _) as [[[[pts cells] cell_info] phys_names]|e'];
      [|done].
    destruct (create_3d_grids _ _); [|done].
    destruct (create_2d_grids _ _ _ _ _ _); [|done].
    destruct (create_1d_grids _ _ _ _ _ _ _) as [[g_1d aux]|]; [|done].
    destruct (create_0d_grids _ _ _ _); done.
Qed.

(** X6.  [line_grid_from_gmsh] is [triangle_grid_from_gmsh] without the 2-d
    grids: where the latter returns, the former returns the same lists
    for dimensions 1 and 0, and where the former raises so does the
    latter. *)
Theorem line_grids_are_the_lower_triangle_grids (f : string)
    (c : option (list Z)) (kw : kwargs) :
  (forall grids,
     (triangle_grid_from_gmsh f c kw).1 = Returns grids ->
     (line_grid_from_gmsh f c kw).1 = Returns (tail grids))
  /\ (forall e,
        (line_grid_from_gmsh f c kw).1 = Raises e ->
        exists e', (triangle_grid_from_gmsh f c kw).1 = Raises e').
Proof.
  rewrite triangle_grid_from_gmsh_run, line_grid_from_gmsh_run.
  destruct (meshio_read _) as [[[[pts cells] cell_info] phys_names]|e'].
  2: { split; [done|]. intros e _. by eexists. }
  destruct (create_2d_grids _ _ _ _ _ _) as [g_2d|e2].
  2: { split; [done|]. intros e _. by eexists. }
  destruct (create_1d_grids _ _ _ _ _ _ _) as [[g_1d aux]|e1].
  2: { split; [done|]. intros e _. by eexists. }
  destruct (create_0d_grids _ _ _ _) as [g_0d|e0].
  - split; [|done]. by intros grids [= <-].
  - split; [done|]. intros e _. by eexists.
Qed.

End Runs.

End EntryPointFacts.

(** ** The repacking of [_read_gmsh_file] *)

Module GmshFileFacts.

Import Simplex GmshFile.

(** *** The outcome monad *)

Lemma mapM_outcome_Returns {E A B} (f : A -> outcome E B) (l : list A)
    (l' : list B) :
  mapM f l = Returns l' <-> Forall2 (fun x y => f x = Returns y) l l'.
Proof.
  revert l'. induction l as [|x l IH]; intros l'; simpl.
  - split.
    + intros [= <-]. constructor.
    + intros ->%Forall2_nil_inv_l. done.
  - unfold mbind, outcome_bind, mret, outcome_ret.
    destruct (f x) as [y|e] eqn:Hx.
    + destruct (mapM f l) as [k|e] eqn:Hl.
      * split.
        -- intros [= <-]. constructor; [exact Hx|].
           apply (proj1 (IH k)). reflexivity.
        -- intros (y' & k' & Hy & Hk & ->)%Forall2_cons_inv_l.
           apply (proj2 (IH k')) in Hk. congruence.
      * split; [done|].
        intros (y' & k' & Hy & Hk & ->)%Forall2_cons_inv_l.
        apply (proj2 (IH k')) in Hk. done.
    + split; [done|].
      intros (y' & k' & Hy & Hk & ->)%Forall2_cons_inv_l. congruence.
Qed.

Lemma mapM_outcome_Raises {E A B} (f : A -> outcome E B) (l : list A) (e : E) :
  mapM f l = Raises e -> exists x, x ∈ l /\ f x = Raises e.
Proof.
  induction l as [|x l IH]; simpl; [done|].
  unfold mbind, outcome_bind, mret, outcome_ret.
  destruct (f x) as [y|e'] eqn:Hx.
  - destruct (mapM f l) as [k|e'] eqn:Hl; [done|].
    intros [= ->]. destruct IH as (x' & Hin & Hx'); [done|].
    exists x'. split; [by right | done].
  - intros [= ->]. exists x. split; [by left | done].
Qed.

Lemma foldl_Raises {E A B} (step : outcome E A -> B -> outcome E A) (e : E)
    (l : list B) :
  (forall x, step (Raises e) x = Raises e) ->
  foldl step (Raises e) l = Raises e.
Proof. intros H. induction l as [|x l IH]; simpl; [done | by rewrite H]. Qed.

(** *** Physical names *)

Lemma invert_from {X} (fd : list (string * list Z)) (m : gmap Z string) :
  Forall (fun kv => kv.2 <> []) fd ->
  foldl (fun acc kv =>
           m ← acc;
           match kv.2 with
           | [] => Raises (@IndexError X)
           | tag :: _ => mret (<[tag := kv.1]> m)
           end) (Returns m) fd
  = Returns (foldl (fun m kv => <[default 0%Z (head kv.2) := kv.1]> m) m fd).
Proof.
  intros H. revert m. induction H as [|[k v] fd Hv _ IH]; intros m; [done|].
  simpl in *. destruct v as [|tag v]; [done|]. apply IH.
Qed.

Lemma invert_stuck {X} (fd : list (string * list Z))
    (acc : outcome (exn X) (gmap Z string)) :
  Exists (fun kv => kv.2 = []) fd ->
  (forall e, acc = Raises e -> e = IndexError) ->
  foldl (fun acc kv =>
           m ← acc;
           match kv.2 with
           | [] => Raises (@IndexError X)
           | tag :: _ => mret (<[tag := kv.1]> m)
           end) acc fd
  = Raises IndexError.
Proof.
  intros H. revert acc. induction H as [[k v] fd Hv | [k v] fd _ IH];
    intros acc Hacc; simpl in *.
  - subst v. destruct acc as [m|e]; simpl.
    + by apply foldl_Raises.
    + rewrite (Hacc e eq_refl). by apply foldl_Raises.
  - apply IH. intros e. destruct acc as [m|e']; simpl.
    + destruct v; [congruence | done].
    + intros [= ->]. by apply Hacc.
Qed.

Lemma invert_field_data_Returns {X} (fd : list (string * list Z)) :
  Forall (fun kv => kv.2 <> []) fd ->
  invert_field_data (X := X) fd
  = Returns (foldl (fun m kv => <[default 0%Z (head kv.2) := kv.1]> m) ∅ fd).
Proof. apply invert_from. Qed.

Lemma invert_field_data_Raises {X} (fd : list (string * list Z)) :
  Exists (fun kv => kv.2 = []) fd ->
  invert_field_data (X := X) fd = Raises IndexError.
Proof. intros H. apply invert_stuck; done. Qed.

Lemma invert_field_data_cases {X} (fd : list (string * list Z)) :
  (Forall (fun kv => kv.2 <> []) fd /\
   invert_field_data (X := X) fd
   = Returns (foldl (fun m kv => <[default 0%Z (head kv.2) := kv.1]> m) ∅ fd))
  \/ (Exists (fun kv => kv.2 = []) fd /\
      invert_field_data (X := X) fd = Raises IndexError).
Proof.
  destruct (decide (Exists (fun kv : string * list Z => kv.2 = []) fd))
    as [H|H].
  - right. split; [done | by apply invert_field_data_Raises].
  - left. apply not_Exists_Forall in H; [|intros x; apply _].
    assert (Forall (fun kv : string * list Z => kv.2 <> []) fd) as H'.
    { eapply Forall_impl; [exact H|]. simpl. intros x Hx. exact Hx. }
    split; [done | by apply invert_field_data_Returns].
Qed.

(** The name found under a tag is the last one listed with that tag. *)
Lemma last_name_wins (fd : list (string * list Z)) (m0 : gmap Z string)
    (tag : Z) :
  Forall (fun kv => kv.2 <> []) fd ->
  foldl (fun m kv => <[default 0%Z (head kv.2) := kv.1]> m) m0 fd !! tag
  = match last (filter (fun kv => head kv.2 = Some tag) fd) with
    | Some kv => Some kv.1
    | None => m0 !! tag
    end.
Proof.
  induction fd as [|kv fd IH] using rev_ind; [done|].
  intros [Hfd [Hkv _]%Forall_cons]%Forall_app.
  rewrite foldl_app, filter_app. simpl.
  destruct kv as [name [|t v]]; [done|]. simpl.
  destruct (decide (t = tag)) as [->|Hne].
  - rewrite filter_cons_True by done. rewrite filter_nil.
    rewrite last_snoc. simpl. by rewrite lookup_insert_eq.
  - rewrite filter_cons_False by (simpl; congruence).
    rewrite filter_nil, app_nil_r.
    rewrite lookup_insert_ne by done. by apply IH.
Qed.

(** With distinct keys, a key selects one entry. *)
Lemma NoDup_key_inj {A K} (key : A -> K) (l : list A) (x y : A) :
  NoDup (key <$> l) -> x ∈ l -> y ∈ l -> key x = key y -> x = y.
Proof.
  induction l as [|a l IH]; [by intros _ ?%elem_of_nil|].
  rewrite fmap_cons.
  intros [Ha Hnd]%NoDup_cons [->|Hx]%elem_of_cons [->|Hy]%elem_of_cons Hk.
  - done.
  - destruct Ha. rewrite Hk. by apply list_elem_of_fmap_2.
  - destruct Ha. rewrite <- Hk. by apply list_elem_of_fmap_2.
  - by apply IH.
Qed.

(** *** Collecting the blocks *)

Lemma dict_append_cons {X A} (key : string) (x : A) (kv : string * list A)
    (r : list (string * list A)) :
  dict_append (X := X) key x (kv :: r)
  = if String.eqb kv.1 key then Returns ((kv.1, kv.2 ++ [x]) :: r)
    else r' ← dict_append key x r; mret (kv :: r').
Proof. reflexivity. Qed.

Lemma dict_append_keyed {X A} (keys : list string) (f : string -> list A)
    (key : string) (x : A) :
  NoDup keys -> key ∈ keys ->
  dict_append (X := X) key x ((fun k => (k, f k)) <$> keys)
  = Returns ((fun k => (k, if decide (k = key) then f k ++ [x] else f k))
               <$> keys).
Proof.
  induction keys as [|k keys IH]; intros Hnd Hin.
  - by apply elem_of_nil in Hin.
  - apply NoDup_cons in Hnd as [Hk Hnd].
    rewrite !fmap_cons, dict_append_cons. simpl.
    destruct (String.eqb_spec k key) as [->|Hne].
    + rewrite decide_True by done. f_equal. f_equal.
      apply list_fmap_ext. intros i k' Hk'.
      destruct (decide (k' = key)) as [->|]; [|done].
      apply list_elem_of_lookup_2 in Hk'. done.
    + rewrite decide_False by done.
      apply elem_of_cons in Hin as [->|Hin]; [done|].
      rewrite IH by done. done.
Qed.

Lemma dict_append_Raises {X A} (key : string) (x : A)
    (d : list (string * list A)) (e : exn X) :
  dict_append key x d = Raises e -> e = KeyError key /\ key ∉ d.*1.
Proof.
  induction d as [|kv d IH]; simpl.
  - intros [= <-]. split; [done | apply not_elem_of_nil].
  - destruct (String.eqb_spec kv.1 key) as [Heq|Hne]; [done|].
    unfold mbind, outcome_bind.
    destruct (dict_append key x d) as [r|e'] eqn:Hd; [done|].
    intros [= ->]. destruct IH as [-> Hnot]; [done|].
    split; [done|]. intros [?|?]%elem_of_cons; [congruence | done].
Qed.

Lemma append_blocks_cons {X} (p : CellBlock * Array1)
    (pairs : list (CellBlock * Array1))
    (tmp : list (string * list Array2) * list (string * list Array1)) :
  append_blocks (X := X) (p :: pairs) tmp
  = (tmp_cells ← dict_append (cb_type p.1) (cb_data p.1) tmp.1;
     tmp_info ← dict_append (cb_type p.1) p.2 tmp.2;
     append_blocks pairs (tmp_cells, tmp_info)).
Proof.
  unfold append_blocks. simpl. unfold mbind, outcome_bind, mret, outcome_ret.
  destruct (dict_append (cb_type p.1) (cb_data p.1) tmp.1) as [tc|e];
    [|by apply foldl_Raises].
  destruct (dict_append (cb_type p.1) p.2 tmp.2) as [ti|e];
    [done | by apply foldl_Raises].
Qed.

Lemma cells_of_type_cons (t : string) (p : CellBlock * Array1)
    (pairs : list (CellBlock * Array1)) :
  cells_of_type t (p :: pairs)
  = (if decide (t = cb_type p.1) then [cb_data p.1] else [])
    ++ cells_of_type t pairs.
Proof.
  unfold cells_of_type. destruct (decide (t = cb_type p.1)) as [->|Hne].
  - by rewrite filter_cons_True.
  - by rewrite filter_cons_False.
Qed.

Lemma tags_of_type_cons (t : string) (p : CellBlock * Array1)
    (pairs : list (CellBlock * Array1)) :
  tags_of_type t (p :: pairs)
  = (if decide (t = cb_type p.1) then [p.2] else []) ++ tags_of_type t pairs.
Proof.
  unfold tags_of_type. destruct (decide (t = cb_type p.1)) as [->|Hne].
  - by rewrite filter_cons_True.
  - by rewrite filter_cons_False.
Qed.

(** With every type among the keys, the loop never fails and files
    every block under its type. *)
Lemma append_blocks_keyed {X} (keys : list string)
    (pairs : list (CellBlock * Array1))
    (f : string -> list Array2) (g : string -> list Array1) :
  NoDup keys -> (forall p, p ∈ pairs -> cb_type p.1 ∈ keys) ->
  append_blocks (X := X) pairs
    ((fun k => (k, f k)) <$> keys, (fun k => (k, g k)) <$> keys)
  = Returns ((fun k => (k, f k ++ cells_of_type k pairs)) <$> keys,
             (fun k => (k, g k ++ tags_of_type k pairs)) <$> keys).
Proof.
  intros Hnd. revert f g. induction pairs as [|p pairs IH]; intros f g Hin.
  - unfold append_blocks. simpl. unfold mret, outcome_ret. f_equal.
    f_equal; apply list_fmap_ext; intros i k _; simpl; by rewrite app_nil_r.
  - rewrite append_blocks_cons. simpl.
    assert (cb_type p.1 ∈ keys) as Hp by (apply Hin; by left).
    rewrite !dict_append_keyed by done. simpl.
    rewrite IH by (intros q Hq; apply Hin; by right).
    f_equal. f_equal; apply list_fmap_ext; intros i k _; simpl.
    + rewrite cells_of_type_cons. destruct (decide (k = cb_type p.1)).
      * by rewrite <- app_assoc.
      * done.
    + rewrite tags_of_type_cons. destruct (decide (k = cb_type p.1)).
      * by rewrite <- app_assoc.
      * done.
Qed.

(** *** Stacking *)



Lemma forallb_false {A} (p : A -> bool) (l : list A) :
  forallb p l = false -> exists x, x ∈ l /\ p x = false.
Proof.
  induction l as [|x l IH]; simpl; [done|].
  destruct (p x) eqn:Hx; simpl.
  - intros (y & Hy & Hp)%IH. exists y. split; [by right | done].
  - intros _. exists x. split; [by left | done].
Qed.

Lemma vstack_Raises {X} (parts : list Array2) (e : exn X) :
  vstack parts = Raises e ->
  e = ValueError
  /\ (parts = []
      \/ exists b b', b ∈ parts /\ b' ∈ parts /\ width b <> width b').
Proof.
  destruct parts as [|b rest]; simpl.
  - intros [= <-]. split; [done | by left].
  - destruct (forallb _ rest) eqn:Hw; [done|].
    intros [= <-]. split; [done|]. right.
    apply forallb_false in Hw as (c & Hc & Hw).
    apply Nat.eqb_neq in Hw.
    exists c, b. split; [by right|]. split; [by left | done].
Qed.

Lemma hstack_Returns {X} (parts : list Array1) (a : Array1) :
  hstack (X := X) parts = Returns a -> parts <> [] /\ a = concat parts.
Proof. destruct parts; simpl; [done|]. intros [= <-]. done. Qed.

Lemma hstack_nonempty {X} (parts : list Array1) :
  parts <> [] -> hstack (X := X) parts = Returns (concat parts).
Proof. by destruct parts. Qed.

Lemma hstack_Raises {X} (parts : list Array1) (e : exn X) :
  hstack parts = Raises e -> e = ValueError /\ parts = [].
Proof. destruct parts; simpl; [|done]. intros [= <-]. done. Qed.

Lemma mapM_outcome_fmap {E A B C} (f : B -> outcome E C) (g : A -> B)
    (l : list A) :
  mapM f (g <$> l) = mapM (fun x => f (g x)) l.
Proof.
  induction l as [|x l IH]; [done|].
  rewrite fmap_cons.
  change (mapM f (g x :: (g <$> l)))
    with (y ← f (g x); k ← mapM f (g <$> l); mret (y :: k)).
  by rewrite IH.
Qed.

Lemma stack_all_keyed {X A B} (stack : list A -> outcome (exn X) B)
    (keys : list string) (f : string -> list A) :
  stack_all stack ((fun k => (k, f k)) <$> keys)
  = mapM (fun k => a ← stack (f k); mret (k, a)) keys.
Proof. unfold stack_all. by rewrite mapM_outcome_fmap. Qed.

(** A type has vertex arrays exactly when it has tag arrays. *)
Lemma tags_of_type_nil (t : string) (pairs : list (CellBlock * Array1)) :
  tags_of_type t pairs = [] <-> cells_of_type t pairs = [].
Proof.
  unfold tags_of_type, cells_of_type.
  destruct (filter _ pairs); simpl; split; congruence.
Qed.


Lemma dict_get_keyed {B} (keys : list string) (F : string -> B) (t : string) :
  t ∈ keys -> dict_get t ((fun k => (k, F k)) <$> keys) = Some (F t).
Proof.
  induction keys as [|k keys IH]; [by intros ?%elem_of_nil|].
  intros Hin. rewrite fmap_cons. simpl.
  destruct (String.eqb_spec k t) as [->|Hne]; [done|].
  apply elem_of_cons in Hin as [->|Hin]; [done | by apply IH].
Qed.

Lemma dict_get_absent {B} (keys : list string) (F : string -> B) (t : string) :
  t ∉ keys -> dict_get t ((fun k => (k, F k)) <$> keys) = None.
Proof.
  induction keys as [|k keys IH]; [done|].
  intros [Hne Hin]%not_elem_of_cons. rewrite fmap_cons. simpl.
  destruct (String.eqb_spec k t) as [->|_]; [done | by apply IH].
Qed.


(** Stacking the parts of every key: all succeed, or the first failure
    is the outcome. *)
Lemma mapM_keyed_cases {X B} (stack : string -> outcome (exn X) B) (d : B)
    (keys : list string) :
  (forall k e, stack k = Raises e -> e = ValueError) ->
  (mapM (fun k => a ← stack k; mret (k, a)) keys
   = Returns ((fun k => (k, match stack k with
                            | Returns a => a
                            | Raises _ => d
                            end)) <$> keys)
   /\ forall k, k ∈ keys -> exists a, stack k = Returns a)
  \/ (mapM (fun k => a ← stack k; mret (k, a)) keys = Raises ValueError
      /\ exists k, k ∈ keys /\ stack k = Raises ValueError).
Proof.
  intros Hv. induction keys as [|k keys IH].
  - left. split; [done|]. by intros k ?%elem_of_nil.
  - change (mapM (fun k => a ← stack k; mret (k, a)) (k :: keys))
      with (y ← (a ← stack k; mret (k, a));
            r ← mapM (fun k => a ← stack k; mret (k, a)) keys;
            mret (y :: r)).
    destruct (stack k) as [a|e] eqn:Hk.
    + destruct IH as [[-> Hall] | [-> (k' & Hin & Hk')]].
      * left. split.
        -- rewrite fmap_cons, Hk. done.
        -- intros k' [->|Hin]%elem_of_cons; [by eexists | by apply Hall].
      * right. split; [done|]. exists k'. split; [by right | done].
    + right. pose proof (Hv _ _ Hk) as ->. split; [done|].
      exists k. split; [by left | done].
Qed.

Lemma mapM_keyed_Returns {E B} (stack : string -> outcome E B)
    (F : string -> B) (keys : list string) :
  (forall k, k ∈ keys -> stack k = Returns (F k)) ->
  mapM (fun k => a ← stack k; mret (k, a)) keys
  = Returns ((fun k => (k, F k)) <$> keys).
Proof.
  induction keys as [|k keys IH]; intros H; [done|].
  change (mapM (fun k => a ← stack k; mret (k, a)) (k :: keys))
    with (y ← (a ← stack k; mret (k, a));
          r ← mapM (fun k => a ← stack k; mret (k, a)) keys;
          mret (y :: r)).
  rewrite (H k) by (by left). rewrite IH by (intros; apply H; by right).
  done.
Qed.




(** The branch for dicts: every cell type must have tags. *)
Lemma drop_level_cases {X} (cd : list (string * gmap string Array1)) :
  (Forall (fun kv => is_Some (kv.2 !! "gmsh:physical")) cd
   /\ exists info, drop_level (X := X) cd = Returns info)
  \/ (Exists (fun kv => kv.2 !! "gmsh:physical" = None) cd
      /\ drop_level (X := X) cd = Raises (KeyError "gmsh:physical")).
Proof.
  unfold drop_level. induction cd as [|kv cd IH].
  - left. split; [constructor | by eexists].
  - change (mapM ?f (kv :: cd))
      with (y ← f kv; r ← mapM f cd; mret (y :: r)).
    destruct (kv.2 !! "gmsh:physical") as [a|] eqn:Ha; rewrite ?Ha.
    + destruct IH as [[Hall (info & ->)] | [Hex ->]].
      * left. split; [constructor; [by eexists | done] | by eexists].
      * right. split; [by right | done].
    + right. split; [by left | done].
Qed.

Lemma drop_level_Returns {X} (cd : list (string * gmap string Array1))
    (info : list (string * Array1)) :
  drop_level (X := X) cd = Returns info ->
  info.*1 = cd.*1
  /\ Forall2 (fun kv kv' => kv.2 !! "gmsh:physical" = Some kv'.2) cd info.
Proof.
  unfold drop_level. intros H%mapM_outcome_Returns.
  induction H as [|kv kv' cd info Hkv _ IH]; [done|].
  destruct (kv.2 !! "gmsh:physical") as [a|] eqn:Ha; [|done].
  injection Hkv as <-. destruct IH as [IH1 IH2]. split.
  - rewrite !fmap_cons. simpl. by rewrite IH1.
  - by constructor.
Qed.

Section Blocks.

Context {P X : Type}.

Variable set_iter : list string -> list string.

(** Iterating over a set visits every element once. *)
Hypothesis set_iter_NoDup : forall l, NoDup (set_iter l).
Hypothesis set_iter_elem : forall l x, x ∈ set_iter l <-> x ∈ l.

(** The branch for cell blocks, once the tags are found: stack the
    vertex arrays of every type, then the tag arrays. *)
Lemma repack_blocks_keyed (cells : list CellBlock)
    (cd : gmap string (list Array1)) (l : list Array1) :
  cd !! "gmsh:physical" = Some l ->
  repack_blocks (X := X) set_iter cells cd
  = (tmp_cells ← mapM (fun k => a ← vstack (cells_of_type k (zip cells l));
                                mret (k, a))
                   (set_iter (cb_type <$> cells));
     tmp_info ← mapM (fun k => a ← hstack (tags_of_type k (zip cells l));
                               mret (k, a))
                  (set_iter (cb_type <$> cells));
     mret (tmp_cells, tmp_info)).
Proof.
  intros Hl. unfold repack_blocks. rewrite Hl.
  change (Returns l ≫= ?k) with (k l). cbv beta.
  rewrite (append_blocks_keyed _ _ (fun _ => []) (fun _ => [])).
  - change (Returns ?t ≫= ?k) with (k t). cbv beta. simpl fst. simpl snd.
    by rewrite !stack_all_keyed.
  - apply set_iter_NoDup.
  - intros [b x] Hin. apply set_iter_elem. simpl.
    apply list_elem_of_fmap_2. eapply elem_of_zip_l, Hin.
Qed.


(** The two outcomes of the branch once the tags are found: the stacks of
    every type, or [ValueError] for a type whose vertex arrays cannot be
    stacked. *)
Lemma repack_blocks_cases (cells : list CellBlock)
    (cd : gmap string (list Array1)) (l : list Array1) :
  cd !! "gmsh:physical" = Some l ->
  (repack_blocks (X := X) set_iter cells cd
   = Returns
       ((fun k => (k, match vstack (X := X) (cells_of_type k (zip cells l)) with
                      | Returns a => a
                      | Raises _ => {| width := 0; rows := [] |}
                      end)) <$> set_iter (cb_type <$> cells),
        (fun k => (k, concat (tags_of_type k (zip cells l))))
          <$> set_iter (cb_type <$> cells))
   /\ forall k, k ∈ set_iter (cb_type <$> cells) ->
        exists a, vstack (X := X) (cells_of_type k (zip cells l)) = Returns a)
  \/ (repack_blocks (X := X) set_iter cells cd = Raises ValueError
      /\ exists k, k ∈ set_iter (cb_type <$> cells)
           /\ vstack (X := X) (cells_of_type k (zip cells l))
              = Raises ValueError).
Proof.
  intros Hl. rewrite (repack_blocks_keyed _ _ _ Hl).
  destruct (mapM_keyed_cases (X := X)
              (fun k => vstack (cells_of_type k (zip cells l)))
              {| width := 0; rows := [] |} (set_iter (cb_type <$> cells)))
    as [[-> Hall] | [-> Hex]].
  - intros k e H. by apply vstack_Raises in H as [-> _].
  - left. split; [|done].
    rewrite (mapM_keyed_Returns _
               (fun k => concat (tags_of_type k (zip cells l)))); [done|].
    intros k Hk. apply hstack_nonempty.
    rewrite tags_of_type_nil. intros Hnil.
    destruct (Hall k Hk) as [a Ha]. rewrite Hnil in Ha. done.
  - right. done.
Qed.







(** X10.  [KeyError] stands for missing tags, never for a cell type: the
    function raises it exactly when every physical name has a tag and the
    cell data have no ["gmsh:physical"] entry (for a dict mesh: some cell
    type has none). *)
Theorem key_error_iff_tags_missing (mesh : MeshioMesh P) (key : string) :
  repack (X := X) set_iter mesh = Raises (KeyError key)
  <-> key = "gmsh:physical"
      /\ Forall (fun kv => kv.2 <> []) (field_data mesh)
      /\ match mesh with
         | MeshV4 _ _ cd _ => cd !! "gmsh:physical" = None
         | MeshV2 _ _ cd _ =>
             Exists (fun kv => kv.2 !! "gmsh:physical" = None) cd
         end.
Proof.
  unfold repack.
  destruct (invert_field_data_cases (X := X) (field_data mesh))
    as [[Hfd ->] | [Hfd ->]].
  2: { split; [done|]. intros (_ & Hall & _).
       apply Exists_exists in Hfd as (kv & Hin & Hkv).
       rewrite Forall_forall in Hall. by destruct (Hall kv Hin). }
  change (Returns ?t ≫= ?k) with (k t). cbv beta.
  destruct mesh as [pts cells cd fd | pts cells cd fd].
  - destruct (cd !! "gmsh:physical") as [l|] eqn:Hl.
    + split; [|by intros (_ & _ & ?)].
      destruct (repack_blocks_cases cells cd l Hl) as [[-> _] | [-> _]];
        done.
    + unfold repack_blocks. rewrite Hl. simpl. split.
      * by intros [= <-].
      * by intros (-> & _).
  - destruct (drop_level_cases (X := X) cd) as [[Hcd (info & ->)] | [Hcd ->]].
    + split; [done|]. intros (_ & _ & Hex).
      apply Exists_exists in Hex as (kv & Hin & Hkv).
      rewrite Forall_forall in Hcd. destruct (Hcd kv Hin) as [a Ha].
      congruence.
    + simpl. split.
      * by intros [= <-].
      * by intros (-> & _).
Qed.

End Blocks.

(** *** Physical names *)

(** X11.  Line 337 inverts the field data: when every physical name has a tag,
    the dict of names is built; under a tag stands the last name listed
    with it, every name found under a tag is listed with it and, with
    distinct tags, every name is found under its tag. *)
Theorem physical_names_inverted {X} (fd : list (string * list Z)) :
  Forall (fun kv => kv.2 <> []) fd ->
  exists names,
    invert_field_data (X := X) fd = Returns names
    /\ (forall tag,
          names !! tag
          = fst <$> last (filter (fun kv => head kv.2 = Some tag) fd))
    /\ (forall tag name,
          names !! tag = Some name -> exists v, (name, tag :: v) ∈ fd)
    /\ (NoDup ((fun kv => head kv.2) <$> fd) ->
        forall tag name v, (name, tag :: v) ∈ fd -> names !! tag = Some name).
Proof.
  intros Hfd. eexists. split; [by apply invert_field_data_Returns|].
  assert (forall tag,
    foldl (fun (m : gmap Z string) (kv : string * list Z) =>
             <[default 0%Z (head kv.2) := kv.1]> m) ∅ fd !! tag
    = fst <$> last (filter (fun kv => head kv.2 = Some tag) fd)) as Hlast.
  { intros tag. rewrite last_name_wins by done.
    by destruct (last _). }
  split; [done|]. split.
  - intros tag name. rewrite Hlast.
    destruct (last _) as [[n v]|] eqn:Hl; [|done]. intros [= <-].
    apply last_Some_elem_of, list_elem_of_filter in Hl as [Hh Hin].
    simpl in Hh. destruct v as [|t v]; [done|]. injection Hh as ->.
    by exists v.
  - intros Hnd tag name v Hin. rewrite Hlast.
    destruct (last _) as [kv|] eqn:Hl.
    + apply last_Some_elem_of, list_elem_of_filter in Hl as [Hh Hin'].
      rewrite (NoDup_key_inj (fun kv => head kv.2) fd kv (name, tag :: v));
        done.
    + apply last_None in Hl.
      assert ((name, tag :: v) ∈ filter
                (fun kv : string * list Z => head kv.2 = Some tag) fd) as H.
      { by apply list_elem_of_filter. }
      rewrite Hl in H. by apply elem_of_nil in H.
Qed.

(** *** Which exception *)

Lemma append_blocks_Raises {X} (pairs : list (CellBlock * Array1))
    (tmp : list (string * list Array2) * list (string * list Array1))
    (e : exn X) :
  append_blocks pairs tmp = Raises e -> exists key, e = KeyError key.
Proof.
  revert tmp. induction pairs as [|p pairs IH]; intros tmp; [done|].
  rewrite append_blocks_cons.
  destruct (dict_append (cb_type p.1) (cb_data p.1) tmp.1) as [tc|e1] eqn:H1.
  - destruct (dict_append (cb_type p.1) p.2 tmp.2) as [ti|e2] eqn:H2.
    + apply IH.
    + intros [= <-]. apply dict_append_Raises in H2 as [-> _]. by eexists.
  - intros [= <-]. apply dict_append_Raises in H1 as [-> _]. by eexists.
Qed.

Lemma stack_all_Raises {X A B} (stack : list A -> outcome (exn X) B)
    (d : list (string * list A)) (e : exn X) :
  (forall parts e, stack parts = Raises e -> e = ValueError) ->
  stack_all stack d = Raises e -> e = ValueError.
Proof.
  intros Hs (kv & _ & H)%mapM_outcome_Raises.
  destruct (stack kv.2) as [a|e'] eqn:Hk; [done|].
  injection H as <-. by eapply Hs.
Qed.

(** Whatever the order of the set, the branch for cell blocks raises
    [KeyError] or [ValueError] only. *)
Lemma repack_blocks_Raises {X} (set_iter : list string -> list string)
    (cells : list CellBlock) (cd : gmap string (list Array1)) (e : exn X) :
  repack_blocks set_iter cells cd = Raises e ->
  e = ValueError \/ exists key, e = KeyError key.
Proof.
  unfold repack_blocks.
  destruct (cd !! "gmsh:physical") as [l|].
  2: { intros [= <-]. right. by eexists. }
  change (Returns l ≫= ?k) with (k l). cbv beta.
  destruct (append_blocks _ _) as [tmp|e'] eqn:Ha.
  2: { intros [= <-]. right. by eapply append_blocks_Raises. }
  change (Returns tmp ≫= ?k) with (k tmp). cbv beta.
  destruct (stack_all vstack tmp.1) as [tc|e'] eqn:Hv.
  2: { intros [= <-]. left. eapply stack_all_Raises; [|exact Hv].
       intros parts e2 H. by apply vstack_Raises in H as [-> _]. }
  change (Returns tc ≫= ?k) with (k tc). cbv beta.
  destruct (stack_all hstack tmp.2) as [ti|e'] eqn:Hh; [done|].
  intros [= <-]. left. eapply stack_all_Raises; [|exact Hh].
  intros parts e2 H. by apply hstack_Raises in H as [-> _].
Qed.

(** A mesh whose physical names all have a tag and whose cell data lack
    the tags raises [KeyError], whatever the order of the set. *)
Lemma missing_tags_raise {P X} (set_iter : list string -> list string)
    (mesh : MeshioMesh P) :
  Forall (fun kv => kv.2 <> []) (field_data mesh) ->
  match mesh with
  | MeshV4 _ _ cd _ => cd !! "gmsh:physical" = None
  | MeshV2 _ _ cd _ => Exists (fun kv => kv.2 !! "gmsh:physical" = None) cd
  end ->
  repack (X := X) set_iter mesh = Raises (KeyError "gmsh:physical").
Proof.
  intros Hfd Hmiss. unfold repack.
  rewrite invert_field_data_Returns by done.
  change (Returns ?t ≫= ?k) with (k t). cbv beta.
  destruct mesh as [pts cells cd fd | pts cells cd fd].
  - unfold repack_blocks. by rewrite Hmiss.
  - destruct (drop_level_cases (X := X) cd) as [[Hcd _] | [_ ->]]; [|done].
    apply Exists_exists in Hmiss as (kv & Hin & Hkv).
    rewrite Forall_forall in Hcd. destruct (Hcd kv Hin) as [a Ha].
    congruence.
Qed.

(** X12.  [IndexError] is raised exactly for a physical name without a tag,
    whatever else is wrong with the mesh and whatever the order of the
    set. *)
Theorem index_error_iff_empty_field {P X}
    (set_iter : list string -> list string) (mesh : MeshioMesh P) :
  repack (X := X) set_iter mesh = Raises IndexError
  <-> Exists (fun kv => kv.2 = []) (field_data mesh).
Proof.
  unfold repack.
  destruct (invert_field_data_cases (X := X) (field_data mesh))
    as [[Hfd ->] | [Hfd ->]]; [|done].
  change (Returns ?t ≫= ?k) with (k t). cbv beta.
  split.
  - destruct mesh as [pts cells cd fd | pts cells cd fd].
    + destruct (repack_blocks set_iter cells cd) as [r|e] eqn:Hr; [done|].
      intros [= ->].
      by destruct (repack_blocks_Raises _ _ _ _ Hr) as [? | [? ?]].
    + destruct (drop_level_cases (X := X) cd) as [[_ (info & ->)] | [_ ->]];
        done.
  - intros (kv & Hin & Hkv)%Exists_exists.
    rewrite Forall_forall in Hfd. by destruct (Hfd kv Hin).
Qed.

(** *** Dict meshes *)

(** X13.  A dict mesh whose physical names and cell types all have tags is
    returned with its points and cells as they are; the cell data keep
    their keys, in order, and under each key only the tags remain. *)
Theorem dict_mesh_keeps_cells {P X} (set_iter : list string -> list string)
    (pts : P) (cells : list (string * Array2))
    (cd : list (string * gmap string Array1)) (fd : list (string * list Z)) :
  Forall (fun kv => kv.2 <> []) fd ->
  Forall (fun kv => is_Some (kv.2 !! "gmsh:physical")) cd ->
  exists info names,
    repack (X := X) set_iter (MeshV2 pts cells cd fd)
    = Returns (pts, cells, info, names)
    /\ invert_field_data (X := X) fd = Returns names
    /\ info.*1 = cd.*1
    /\ Forall2 (fun kv kv' => kv.2 !! "gmsh:physical" = Some kv'.2) cd info.
Proof.
  intros Hfd Hcd. unfold repack. simpl field_data.
  rewrite invert_field_data_Returns by done.
  destruct (drop_level_cases (X := X) cd)
    as [[_ (info & Hinfo)] | [Hex _]].
  - exists info. eexists. rewrite Hinfo. split; [done|]. split; [done|].
    by apply drop_level_Returns in Hinfo.
  - apply Exists_exists in Hex as (kv & Hin & Hkv).
    rewrite Forall_forall in Hcd. destruct (Hcd kv Hin) as [a Ha].
    congruence.
Qed.


(** *** The order of the set *)

(** X14.  Python fixes no order for the iteration over [set(types)].  The
    outcome does not depend on it: two orders give the same exception, or
    the same points and names and dicts with the same entries. *)
Theorem set_order_is_immaterial {P X}
    (set_iter set_iter' : list string -> list string)
    (mesh : MeshioMesh P) :
  (forall l, NoDup (set_iter l)) ->
  (forall l x, x ∈ set_iter l <-> x ∈ l) ->
  (forall l, NoDup (set_iter' l)) ->
  (forall l x, x ∈ set_iter' l <-> x ∈ l) ->
  match repack (X := X) set_iter mesh, repack (X := X) set_iter' mesh with
  | Returns (pts, cells, info, names), Returns (pts', cells', info', names') =>
      pts = pts' /\ names = names' /\ cells ≡ₚ cells' /\ info ≡ₚ info'
      /\ (forall t, dict_get t cells = dict_get t cells')
      /\ (forall t, dict_get t info = dict_get t info')
  | Raises e, Raises e' => e = e'
  | _, _ => False
  end.
Proof.
  intros Hnd Hel Hnd' Hel'. unfold repack.
  destruct (invert_field_data_cases (X := X) (field_data mesh))
    as [[Hfd ->] | [Hfd ->]]; [|done].
  change (Returns ?t ≫= ?k) with (k t). cbv beta.
  destruct mesh as [pts cells cd fd | pts cells cd fd].
  2: { destruct (drop_level cd) as [info|e]; simpl; [|done].
       repeat split; done. }
  destruct (cd !! "gmsh:physical") as [l|] eqn:Hl.
  2: { unfold repack_blocks. rewrite Hl. done. }
  assert (set_iter (cb_type <$> cells) ≡ₚ set_iter' (cb_type <$> cells))
    as Hperm.
  { apply NoDup_Permutation; [done | done |].
    intros x. by rewrite Hel, Hel'. }
  destruct (repack_blocks_cases (X := X) set_iter Hnd Hel cells cd l Hl)
    as [[-> Hall] | [-> (k & Hk & Hfail)]];
  destruct (repack_blocks_cases (X := X) set_iter' Hnd' Hel' cells cd l Hl)
    as [[-> Hall'] | [-> (k' & Hk' & Hfail')]]; simpl.
  - split; [done|]. split; [done|].
    split; [by apply fmap_Permutation|].
    split; [by apply fmap_Permutation|].
    split; intros t.
    + destruct (decide (t ∈ set_iter (cb_type <$> cells))) as [Ht|Ht].
      * rewrite !dict_get_keyed; [done | by rewrite <- Hperm | done].
      * rewrite !dict_get_absent; [done | by rewrite <- Hperm | done].
    + destruct (decide (t ∈ set_iter (cb_type <$> cells))) as [Ht|Ht].
      * rewrite !dict_get_keyed; [done | by rewrite <- Hperm | done].
      * rewrite !dict_get_absent; [done | by rewrite <- Hperm | done].
  - rewrite <- Hperm in Hk'. destruct (Hall k' Hk') as [a Ha]. congruence.
  - rewrite Hperm in Hk. destruct (Hall' k Hk) as [a Ha]. congruence.
  - done.
Qed.

End GmshFileFacts.

(** ** The entry points over the repacking *)

Module GmshEntryFacts.

Import Simplex GmshFile.

Section Composition.

Context {P X G A V : Type}.

Variable set_iter : list string -> list string.
Variable read : string -> outcome (exn X) (MeshioMesh P).
Variable g_dim : G -> Z.
Variable g_num_cells : G -> Z.
Variable positive : V -> bool.
Variable c2d :
  P -> list (string * Array2) -> bool -> gmap Z string ->
  list (string * Array1) -> option (list Z) -> outcome (exn X) (list G).
Variable c1d :
  P -> list (string * Array2) -> gmap Z string -> list (string * Array1) ->
  option string -> option (list Z) -> gmap string V ->
  outcome (exn X) (list G * A).
Variable c0d :
  P -> list (string * Array2) -> gmap Z string -> list (string * Array1) ->
  outcome (exn X) (list G).
Variable c3d : P -> list (string * Array2) -> outcome (exn X) (list G).
Variable fracture : string.
Variable clock : string.

Local Abbreviation entry :=
  (gmsh_env set_iter read g_dim g_num_cells positive c2d c1d c0d c3d
     fracture clock).

(** X15.  A file whose mesh has a tag for every physical name but no
    ["gmsh:physical"] cell data stops every entry point with [KeyError]:
    the file is read, no grid constructor is reached and nothing is
    logged. *)
Theorem missing_tags_stop_every_entry_point (mesh : MeshioMesh P)
    (f : string) (c : option (list Z)) (kw : gmap string V) :
  Forall (fun kv => kv.2 <> []) (field_data mesh) ->
  match mesh with
  | MeshV4 _ _ cd _ => cd !! "gmsh:physical" = None
  | MeshV2 _ _ cd _ => Exists (fun kv => kv.2 !! "gmsh:physical" = None) cd
  end ->
  (read (gmsh_out_file f) = Returns mesh ->
   triangle_grid_from_gmsh (env := entry) f c kw
   = (Raises (KeyError "gmsh:physical"), [Read (gmsh_out_file f)])
   /\ line_grid_from_gmsh (env := entry) f c kw
      = (Raises (KeyError "gmsh:physical"), [Read (gmsh_out_file f)])
   /\ tetrahedral_grid_from_gmsh (env := entry) f c kw
      = (Raises (KeyError "gmsh:physical"), [Read (gmsh_out_file f)]))
  /\ (read (embedded_out_file f) = Returns mesh ->
      triangle_grid_embedded (env := entry) f
      = (Raises (KeyError "gmsh:physical"), [Read (embedded_out_file f)])).
Proof.
  intros Hfd Hmiss.
  pose proof (GmshFileFacts.missing_tags_raise (X := X) set_iter mesh
                Hfd Hmiss) as Hraise.
  split.
  - intros Hread.
    assert (meshio_read (Collaborators := entry) (gmsh_out_file f)
            = Raises (KeyError "gmsh:physical")) as Hm.
    { simpl. unfold read_gmsh_file. by rewrite Hread. }
    rewrite EntryPointFacts.triangle_grid_from_gmsh_run,
      EntryPointFacts.line_grid_from_gmsh_run,
      EntryPointFacts.tetrahedral_grid_from_gmsh_run.
    by rewrite Hm.
  - intros Hread.
    assert (meshio_read (Collaborators := entry) (embedded_out_file f)
            = Raises (KeyError "gmsh:physical")) as Hm.
    { simpl. unfold read_gmsh_file. by rewrite Hread. }
    rewrite EntryPointFacts.triangle_grid_embedded_run. by rewrite Hm.
Qed.

End Composition.

End GmshEntryFacts.

(** ** Examples *)

Module GmshExamples.

Import Simplex GmshFile.





Lemma example_fields_tagged :
  Forall (fun kv : string * list Z => kv.2 <> []) example_fields.
Proof. repeat constructor; discriminate. Qed.

(** The names of the example are found under their tags. *)
Lemma physical_names_inverted_witness :
  exists names,
    invert_field_data (X := unit) example_fields = Returns names
    /\ names !! 7%Z = Some "FRACTURE_7"
    /\ names !! 1%Z = Some "DOMAIN".
Proof.
  destruct (GmshFileFacts.physical_names_inverted (X := unit) example_fields
              example_fields_tagged) as (names & Hret & _ & _ & Hfound).
  exists names. split; [exact Hret|].
  assert (NoDup ((fun kv : string * list Z => head kv.2) <$> example_fields))
    as Hnd.
  { apply (bool_decide_eq_true_1 _). reflexivity. }
  split.
  - apply (Hfound Hnd 7%Z "FRACTURE_7" [1%Z]). by left.
  - apply (Hfound Hnd 1%Z "DOMAIN" [2%Z]). right. by left.
Defined.




(** The example without physical tags. *)
Lemma key_error_iff_tags_missing_witness :
  repack (X := unit) remove_dups untagged_mesh
  = Raises (KeyError "gmsh:physical").
Proof.
  apply (GmshFileFacts.key_error_iff_tags_missing (X := unit) remove_dups
           NoDup_remove_dups elem_of_remove_dups).
  split; [reflexivity|]. split; [exact example_fields_tagged|].
  apply lookup_empty.
Defined.

(** The lines of the example as a dict mesh. *)
Lemma dict_mesh_keeps_cells_witness :
  exists info names,
    repack (X := unit) remove_dups example_dict_mesh
    = Returns
        (tt,
         [("line",
           {| width := 2; rows := [[0%Z; 1%Z]; [1%Z; 2%Z]; [2%Z; 3%Z]] |})],
         info, names)
    /\ info.*1 = ["line"].
Proof.
  destruct (GmshFileFacts.dict_mesh_keeps_cells (X := unit) remove_dups tt
              [("line",
                {| width := 2;
                   rows := [[0%Z; 1%Z]; [1%Z; 2%Z]; [2%Z; 3%Z]] |})]
              [("line", {["gmsh:physical" := [7%Z; 7%Z; 8%Z]]})]
              example_fields example_fields_tagged)
    as (info & names & Hret & _ & Hkeys & _).
  { repeat constructor. simpl. rewrite lookup_singleton_eq. by eexists. }
  exists info, names. split; [exact Hret | exact Hkeys].
Defined.

(** The example under two orders of the set of its types. *)
Lemma set_order_is_immaterial_witness :
  match repack (X := unit) remove_dups example_mesh,
        repack (X := unit) (fun l => reverse (remove_dups l)) example_mesh with
  | Returns (pts, cells, info, names), Returns (pts', cells', info', names') =>
      pts = pts' /\ names = names' /\ cells ≡ₚ cells' /\ info ≡ₚ info'
      /\ (forall t, dict_get t cells = dict_get t cells')
      /\ (forall t, dict_get t info = dict_get t info')
  | Raises e, Raises e' => e = e'
  | _, _ => False
  end.
Proof.
  apply (GmshFileFacts.set_order_is_immaterial (X := unit) remove_dups
           (fun l => reverse (remove_dups l)) example_mesh).
  - apply NoDup_remove_dups.
  - apply elem_of_remove_dups.
  - intros l. rewrite reverse_Permutation. apply NoDup_remove_dups.
  - intros l x. rewrite elem_of_reverse. apply elem_of_remove_dups.
Defined.

(** Every entry point on a file without physical tags. *)
Lemma missing_tags_stop_every_entry_point_witness :
  triangle_grid_from_gmsh (env := untagged_env) "grid" None ∅
  = (Raises (KeyError "gmsh:physical"), [Read "grid.msh"])
  /\ triangle_grid_embedded (env := untagged_env) "grid.geo"
     = (Raises (KeyError "gmsh:physical"), [Read "grid.msh"]).
Proof.
  destruct (GmshEntryFacts.missing_tags_stop_every_entry_point
              (X := unit) (G := Z * Z) (A := unit) (V := Z)
              remove_dups (fun _ => Returns untagged_mesh) fst snd
              (fun v => (0 <? v)%Z)
              (fun _ _ _ _ _ _ => Returns [])
              (fun _ _ _ _ _ _ _ => Returns ([], tt))
              (fun _ _ _ _ => Returns []) (fun _ _ => Returns [])
              "FRACTURE" "0.5" untagged_mesh "grid" None ∅
              example_fields_tagged (lookup_empty _))
    as [Hgmsh _].
  destruct (GmshEntryFacts.missing_tags_stop_every_entry_point
              (X := unit) (G := Z * Z) (A := unit) (V := Z)
              remove_dups (fun _ => Returns untagged_mesh) fst snd
              (fun v => (0 <? v)%Z)
              (fun _ _ _ _ _ _ => Returns [])
              (fun _ _ _ _ _ _ _ => Returns ([], tt))
              (fun _ _ _ _ => Returns []) (fun _ _ => Returns [])
              "FRACTURE" "0.5" untagged_mesh "grid.geo" None ∅
              example_fields_tagged (lookup_empty _))
    as [_ Hemb].
  split.
  - exact (proj1 (Hgmsh eq_refl)).
  - exact (Hemb eq_refl).
Defined.

(** A file that cannot be read: nothing is logged. *)
Lemma raising_run_logs_no_summary_witness :
  messages (triangle_grid_from_gmsh (env := example_env) "nofile" None ∅) = [].
Proof.
  destruct (EntryPointFacts.raising_run_logs_no_summary (env := example_env)
              "nofile" None ∅ "No such file: nofile.msh") as (H & _).
  exact (H eq_refl).
Defined.

(** The log of the example file. *)
Lemma returned_grids_are_logged_witness :
  messages (triangle_grid_from_gmsh (env := example_env) "grid" None ∅)
  = ["Create grids of various dimensions";
     "Grid creation completed. Elapsed time 0.5";
     "Created 1 2-d grids with 16 cells";
     "Created 2 1-d grids with 7 cells"].
Proof.
  destruct (EntryPointFacts.returned_grids_are_logged (env := example_env)
              "grid" None ∅ [[(2, 16)%Z]; [(1, 4)%Z; (1, 3)%Z]; []])
    as (H & _).
  exact (proj2 (H eq_refl)).
Defined.

(** The example file read without messages. *)
Lemma tetrahedral_kwargs_reach_the_log_only_witness :
  messages (tetrahedral_grid_from_gmsh (env := example_env) "grid" None
              {["verbose" := 0%Z]}) = [].
Proof.
  destruct (EntryPointFacts.tetrahedral_kwargs_reach_the_log_only
              (env := example_env) "grid" None {["verbose" := 0%Z]} ∅)
    as (_ & _ & H).
  exact (H 0%Z (lookup_singleton_eq _ _) eq_refl).
Defined.

(** The 1-d and 0-d grids of the example file. *)
Lemma line_grids_are_the_lower_triangle_grids_witness :
  (line_grid_from_gmsh (env := example_env) "grid" None ∅).1
  = Returns [[(1, 4)%Z; (1, 3)%Z]; []].
Proof.
  destruct (EntryPointFacts.line_grids_are_the_lower_triangle_grids
              (env := example_env) "grid" None ∅) as (H & _).
  exact (H [[(2, 16)%Z]; [(1, 4)%Z; (1, 3)%Z]; []] eq_refl).
Defined.

End GmshExamples.
